(** * The ephemeral form protocol of the PixieBrix extension

    A shallow embedding of

    - [src/contentScript/ephemeralFormProtocol.ts]: the correlation store
      ([forms]) with [registerForm], [getFormDefinition], [resolveForm] and
      [cancelForm];
    - [src/blocks/transformers/ephemeralForm/formTransformer.ts]:
      [createFrameSource], [FormTransformer.inputSchema] and
      [FormTransformer.transform].

    JavaScript state is passed explicitly: one [World] holds the module-level
    [forms] map, the deferred promises allocated by [pDefer], the abort
    signals, the listeners on [window], and a trace of the calls made to
    collaborators that live outside these two files. *)

From stdpp Require Import base gmap list strings.

Local Open Scope string_scope.

(** ** JavaScript values and errors *)

(** Values of type [unknown]: what a form may submit. *)
#[local] Unset Elimination Schemes.
Inductive JsValue :=
| JUndefined
| JNull
| JBool (b : bool)
| JNum (n : Z)
| JStr (s : string)
| JArr (items : list JsValue)
| JObj (fields : list (string * JsValue)).
#[local] Set Elimination Schemes.

Abbreviation UUID := string (only parsing).

(** Thrown values. [Error] is [new Error(message)]; [TypeError] is the fault
    raised by a property read on [undefined]; [CancelError] is the class
    imported from [@/errors/businessErrors]; [ContextError] is what
    [expectContext] throws. *)
Inductive JsError :=
| Error (message : string)
| TypeError (message : string)
| CancelError (message : string)
| ContextError (expected : string).

(** The state of a promise. *)
Inductive PromiseState :=
| Pending
| Fulfilled (value : JsValue)
| Rejected (reason : JsError).

(** ** The data of the two modules *)

(** [FormDefinition], as built by [transform] (lines 117-122). *)
Record FormDefinition := {
  schema : JsValue;
  uiSchema : JsValue;
  cancelable : bool;
  submitCaption : string;
}.

(** A [DeferredPromise] made by [pDefer], by its allocation index. *)
Abbreviation Deferred := nat (only parsing).

(** [type RegisteredForm] (lines 24-27). *)
Record RegisteredForm := {
  definition : FormDefinition;
  registration : Deferred;
}.

(** An [AbortSignal], by its allocation index. *)
Abbreviation SignalRef := nat (only parsing).

(** The URL built by [createFrameSource]: [ephemeralForm.html] with the
    search parameters [nonce], [opener] and [mode]. *)
Record FrameSource := {
  param_nonce : string;
  param_opener : string;
  param_mode : string;
}.

(** The closures that [transform] registers for the ["abort"] event. *)
Inductive AbortListener :=
| CallerAbortListener (frameNonce : UUID)
    (* lines 124-126: () => { void cancelForm(frameNonce) } *)
| ControllerAbortListener (frameNonce : UUID).
    (* lines 154-160: () => { hideSidebarForm(frameNonce); void cancelForm(frameNonce) } *)

Record Signal := {
  aborted : bool;
  abortListeners : list AbortListener;
}.

(** The listener for [PANEL_HIDING_EVENT] on [window] (lines 142-152): the
    callback [() => controller.abort()] and the [signal] option. *)
Record PanelHidingListener := {
  callback_controller : SignalRef;
  option_signal : SignalRef;
}.

(** Calls that leave the two files, and the ["abort"] events dispatched. *)
Inductive Effect :=
| ConsoleWarn (format : string) (arg : string)
| EnsureSidebar
| ShowSidebarForm (extensionId : UUID) (nonce : UUID) (form : FormDefinition)
| HideSidebarForm (nonce : UUID)
| ShowModal (url : FrameSource) (controller : SignalRef)
| AbortEvent (signal : SignalRef).

Record World := {
  context : string;
  forms : gmap string RegisteredForm;
  promises : list PromiseState;
  signals : list Signal;
  windowListeners : list PanelHidingListener;
  trace : list Effect;
}.

Definition with_forms (f : gmap string RegisteredForm) (w : World) : World :=
  {| context := context w; forms := f; promises := promises w;
     signals := signals w; windowListeners := windowListeners w;
     trace := trace w |}.

Definition with_promises (p : list PromiseState) (w : World) : World :=
  {| context := context w; forms := forms w; promises := p;
     signals := signals w; windowListeners := windowListeners w;
     trace := trace w |}.

Definition with_signals (s : list Signal) (w : World) : World :=
  {| context := context w; forms := forms w; promises := promises w;
     signals := s; windowListeners := windowListeners w;
     trace := trace w |}.

Definition with_windowListeners (l : list PanelHidingListener) (w : World) : World :=
  {| context := context w; forms := forms w; promises := promises w;
     signals := signals w; windowListeners := l;
     trace := trace w |}.

Definition emit (e : Effect) (w : World) : World :=
  {| context := context w; forms := forms w; promises := promises w;
     signals := signals w; windowListeners := windowListeners w;
     trace := trace w ++ [e] |}.

(** A freshly loaded content script. *)
Definition initialWorld : World :=
  {| context := "contentScript"; forms := ∅; promises := [];
     signals := []; windowListeners := []; trace := [] |}.

(** ** Computations that may throw *)

Inductive Result (A : Type) :=
| Ok (a : A)
| Throw (e : JsError).
Arguments Ok {A} a.
Arguments Throw {A} e.

(** The body of a function: it returns or throws, and leaves a world. For an
    [async] function [Throw e] is the rejection of the promise it returned. *)
Definition M (A : Type) : Type := World -> Result A * World.

Definition ret {A} (a : A) : M A := fun w => (Ok a, w).
Definition throw {A} (e : JsError) : M A := fun w => (Throw e, w).
Definition bind {A B} (m : M A) (k : A -> M B) : M B := fun w =>
  match m w with
  | (Ok a, w') => k a w'
  | (Throw e, w') => (Throw e, w')
  end.

#[global] Instance M_ret : MRet M := @ret.
#[global] Instance M_bind : MBind M := fun A B k m => bind m k.

(** [void f(...)]: the call runs, its promise is dropped. *)
Definition void {A} (m : M A) (w : World) : World := snd (m w).

(** ** Collaborators of [ephemeralFormProtocol.ts] *)

(** Modelled from the spec: [expectContext] of [@/utils/expectContext], which
    is not among the sources. The spec places every call of the protocol in
    one execution context, in practice the content script; the guard is taken
    to throw when the running context is not the one named. *)
Definition expectContext (name : string) : M unit := fun w =>
  if decide (context w = name) then (Ok tt, w) else (Throw (ContextError name), w).

(** [pDefer()] of the p-defer package: a new pending promise with its
    [resolve] and [reject]. *)
Definition pDefer : M Deferred := fun w =>
  (Ok (length (promises w)), with_promises (promises w ++ [Pending]) w).

(** A promise is settled once: [resolve] and [reject] act on a pending
    promise and are ignored by a settled one. *)
Definition settle (d : Deferred) (s : PromiseState) (ps : list PromiseState) : list PromiseState :=
  match ps !! d with
  | Some Pending => <[d := s]> ps
  | _ => ps
  end.

(** [deferred.resolve(value)]. *)
Definition deferred_resolve (d : Deferred) (value : JsValue) : M unit := fun w =>
  (Ok tt, with_promises (settle d (Fulfilled value) (promises w)) w).

(** [deferred.reject(reason)]. *)
Definition deferred_reject (d : Deferred) (reason : JsError) : M unit := fun w =>
  (Ok tt, with_promises (settle d (Rejected reason) (promises w)) w).

Definition console_warn (format arg : string) : M unit := fun w =>
  (Ok tt, emit (ConsoleWarn format arg) w).

(** The [Map] methods used on [forms]. *)
Definition forms_has (nonce : UUID) : M bool := fun w =>
  (Ok (bool_decide (is_Some (forms w !! nonce))), w).
Definition forms_get (nonce : UUID) : M (option RegisteredForm) := fun w =>
  (Ok (forms w !! nonce), w).
Definition forms_set (nonce : UUID) (form : RegisteredForm) : M unit := fun w =>
  (Ok tt, with_forms (<[nonce := form]> (forms w)) w).
Definition forms_delete (nonce : UUID) : M unit := fun w =>
  (Ok tt, with_forms (delete nonce (forms w)) w).

(** ** [ephemeralFormProtocol.ts] *)

(** [registerForm] (lines 36-54). The promise of the [async] function is
    resolved with [registration.promise] and so follows it: the caller's
    [await] sees the state of the deferred that is returned here. *)
Definition registerForm (nonce : UUID) (definition : FormDefinition) : M Deferred :=
  expectContext "contentScript";;
  registration ← pDefer;
  has ← forms_has nonce;
  (if has : bool
   then console_warn "A form was already registered with nonce %s" nonce
   else ret tt);;
  forms_set nonce {| definition := definition; registration := registration |};;
  ret registration.

(** [unregisterForm] (lines 59-63). *)
Definition unregisterForm (formNonce : UUID) : M unit :=
  expectContext "contentScript";;
  forms_delete formNonce.

(** [getFormDefinition] (lines 65-69): [forms.get(nonce).definition] reads a
    property of [undefined] when the nonce has no entry. *)
Definition getFormDefinition (nonce : UUID) : M FormDefinition :=
  expectContext "contentScript";;
  form ← forms_get nonce;
  match form with
  | Some f => ret (definition f)
  | None => throw (TypeError "Cannot read properties of undefined (reading 'definition')")
  end.

(** [resolveForm] (lines 71-84). *)
Definition resolveForm (formNonce : UUID) (values : JsValue) : M unit :=
  expectContext "contentScript";;
  form ← forms_get formNonce;
  match form with
  | None => throw (Error ("Form not registered: " +:+ formNonce))
  | Some f =>
      deferred_resolve (registration f) values;;
      unregisterForm formNonce
  end.

(** One turn of the [for ... of] loop of [cancelForm] (lines 94-96):
    [form?.registration.reject(...)] does nothing when [form] is undefined. *)
Definition cancelForm_body (formNonce : UUID) : M unit :=
  form ← forms_get formNonce;
  match form with
  | Some f => deferred_reject (registration f) (CancelError "User cancelled the action")
  | None => ret tt
  end;;
  unregisterForm formNonce.

(** The loop (lines 93-97). *)
Fixpoint cancelForm_loop (formNonces : list UUID) : M unit :=
  match formNonces with
  | [] => ret tt
  | formNonce :: rest => cancelForm_body formNonce;; cancelForm_loop rest
  end.

(** [cancelForm] (lines 90-98), with its rest parameter as a list. *)
Definition cancelForm (formNonces : list UUID) : M unit :=
  expectContext "contentScript";;
  cancelForm_loop formNonces.


(** ** The web platform: [AbortController], [AbortSignal], [window] *)

#[global] Instance AbortListener_eq_dec : EqDecision AbortListener.
Proof. solve_decision. Defined.
#[global] Instance PanelHidingListener_eq_dec : EqDecision PanelHidingListener.
Proof. solve_decision. Defined.

(** [signal.aborted]. *)
Definition signal_aborted (s : SignalRef) (w : World) : bool :=
  match signals w !! s with
  | Some sig => aborted sig
  | None => false
  end.

(** [new AbortController()]: the controller is known by its signal. *)
Definition newAbortController : M SignalRef := fun w =>
  (Ok (length (signals w)),
   with_signals (signals w ++ [{| aborted := false; abortListeners := [] |}]) w).

(** [signal.addEventListener("abort", listener)]. *)
Definition signal_addEventListener (s : SignalRef) (l : AbortListener) : M unit := fun w =>
  match signals w !! s with
  | Some sig =>
      (Ok tt,
       with_signals
         (<[s := {| aborted := aborted sig;
                    abortListeners := abortListeners sig ++ [l] |}]> (signals w)) w)
  | None => (Ok tt, w)
  end.

(** [window.addEventListener(PANEL_HIDING_EVENT, callback, {signal})]: a
    signal that is already aborted adds nothing. *)
Definition window_addEventListener (l : PanelHidingListener) : M unit := fun w =>
  if signal_aborted (option_signal l) w then (Ok tt, w)
  else (Ok tt, with_windowListeners (windowListeners w ++ [l]) w).

(** Modelled from the spec: [hideSidebarForm] of
    [@/contentScript/sidebarController], which is not among the sources; the
    removal of the panel entry is recorded in the trace. *)
Definition hideSidebarForm (nonce : UUID) : M unit := fun w =>
  (Ok tt, emit (HideSidebarForm nonce) w).

(** The bodies of the two ["abort"] listeners of [transform]. *)
Definition runAbortListener (l : AbortListener) (w : World) : World :=
  match l with
  | CallerAbortListener frameNonce =>
      void (cancelForm [frameNonce]) w
  | ControllerAbortListener frameNonce =>
      void (cancelForm [frameNonce]) (void (hideSidebarForm frameNonce) w)
  end.

(** [controller.abort()]: nothing when the signal is aborted already;
    otherwise the flag is set, the [window] listeners bound to the signal are
    removed, and the ["abort"] event runs the signal's listeners in order. *)
Definition signal_abort (s : SignalRef) (w : World) : World :=
  match signals w !! s with
  | Some sig =>
      if aborted sig then w
      else
        let w1 := with_signals
                    (<[s := {| aborted := true;
                               abortListeners := abortListeners sig |}]> (signals w)) w in
        let w2 := with_windowListeners
                    (filter (fun l => option_signal l ≠ s) (windowListeners w1)) w1 in
        foldl (fun w' l => runAbortListener l w') (emit (AbortEvent s) w2)
              (abortListeners sig)
  | None => w
  end.

(** [window.dispatchEvent(new Event(PANEL_HIDING_EVENT))]: the listeners
    present at dispatch are called in order, except those removed meanwhile. *)
Definition dispatchPanelHiding (w : World) : World :=
  foldl (fun w' l =>
           if bool_decide (l ∈ windowListeners w')
           then signal_abort (callback_controller l) w'
           else w')
        w (windowListeners w).

(** ** [formTransformer.ts] *)

(** [BlockArg] as [transform] destructures it; [None] is an omitted
    (undefined) property. *)
Record BlockArg := {
  arg_schema : JsValue;
  arg_uiSchema : option JsValue;
  arg_cancelable : option bool;
  arg_submitCaption : option string;
  arg_location : option string;
}.

(** [BlockOptions]: [logger.context.extensionId] and the optional
    [abortSignal]. *)
Record BlockOptions := {
  logger_extensionId : UUID;
  abortSignal : option SignalRef;
}.

(** The parameters bound by the destructuring pattern (lines 100-106). *)
Record Locals := {
  l_schema : JsValue;
  l_uiSchema : JsValue;
  l_cancelable : bool;
  l_submitCaption : string;
  l_location : string;
}.

Definition destructure (arg : BlockArg) : Locals :=
  {| l_schema := arg_schema arg;
     l_uiSchema := default (JObj []) (arg_uiSchema arg);
     l_cancelable := default true (arg_cancelable arg);
     l_submitCaption := default "Submit" (arg_submitCaption arg);
     l_location := default "modal" (arg_location arg) |}.

(** [createFrameSource] (lines 39-50), once [getThisFrame()] has delivered
    [target]; [opener] is its JSON text. *)
Definition createFrameSource (nonce : string) (mode : string) (target : string) : FrameSource :=
  {| param_nonce := nonce; param_opener := target; param_mode := mode |}.

(** The object literal [formDefinition] (lines 117-122). *)
Definition formDefinitionOf (locals : Locals) : FormDefinition :=
  {| schema := l_schema locals; uiSchema := l_uiSchema locals;
     cancelable := l_cancelable locals; submitCaption := l_submitCaption locals |}.

(** Where [transform] is suspended. [getThisFrame], [ensureSidebar],
    [showModal] and [showSidebarForm] are collaborators outside the two
    files: they are taken to deliver. A rejection or a throw of theirs would
    end [transform] before the [try] of line 165, with the world as it is and
    the controller not aborted; it is not among the outcomes here. *)
Inductive Suspended :=
| AwaitCreateFrameSource (frameNonce : UUID) (locals : Locals) (options : BlockOptions)
    (* line 115 *)
| AwaitEnsureSidebar (frameNonce : UUID) (formDefinition : FormDefinition)
    (options : BlockOptions) (controller : SignalRef)
    (* line 133 *)
| AwaitRegisterForm (controller : SignalRef) (registration : Deferred).
    (* line 166 *)

(** What a stretch of [transform] ends in. *)
Inductive Progress :=
| Suspend (at_ : Suspended)
| Return (value : JsValue)
| Raise (e : JsError).

(** Lines 109-115. [frameNonce] is the UUID that [uuidv4()] draws. *)
Definition transform (frameNonce : UUID) (arg : BlockArg) (options : BlockOptions)
  (w : World) : Progress * World :=
  let locals := destructure arg in
  match expectContext "contentScript" w with
  | (Throw e, w') => (Raise e, w')
  | (Ok _, w') => (Suspend (AwaitCreateFrameSource frameNonce locals options), w')
  end.

(** Lines 165-169 up to the [await]: [registerForm] has no [await] of its
    own, so the entry is in [forms] when [transform] suspends. A rejection of
    [registerForm] goes through [finally]. *)
Definition try_registerForm (controller : SignalRef) (frameNonce : UUID)
  (formDefinition : FormDefinition) (w : World) : Progress * World :=
  match registerForm frameNonce formDefinition w with
  | (Ok registration, w') => (Suspend (AwaitRegisterForm controller registration), w')
  | (Throw e, w') => (Raise e, signal_abort controller w')
  end.

(** Lines 115-133 ([sidebar]) or 115-166 (otherwise), from the moment the
    frame source is there. *)
Definition transform_afterCreateFrameSource (frameNonce : UUID) (locals : Locals)
  (options : BlockOptions) (target : string) (w : World) : Progress * World :=
  let frameSource := createFrameSource frameNonce (l_location locals) target in
  let formDefinition := formDefinitionOf locals in
  let w1 :=
    match abortSignal options with
    | Some s => void (signal_addEventListener s (CallerAbortListener frameNonce)) w
    | None => w
    end in
  let controller := length (signals w1) in
  let w2 := void newAbortController w1 in
  if decide (l_location locals = "sidebar")
  then (Suspend (AwaitEnsureSidebar frameNonce formDefinition options controller),
        emit EnsureSidebar w2)
  else try_registerForm controller frameNonce formDefinition
         (emit (ShowModal frameSource controller) w2).

(** Lines 135-166, from the moment [ensureSidebar()] is done. *)
Definition transform_afterEnsureSidebar (frameNonce : UUID)
  (formDefinition : FormDefinition) (options : BlockOptions) (controller : SignalRef)
  (w : World) : Progress * World :=
  let w1 := emit (ShowSidebarForm (logger_extensionId options) frameNonce formDefinition) w in
  let w2 := void (window_addEventListener
                    {| callback_controller := controller; option_signal := controller |}) w1 in
  let w3 := void (signal_addEventListener controller (ControllerAbortListener frameNonce)) w2 in
  try_registerForm controller frameNonce formDefinition w3.

(** Lines 166-169, from the moment the awaited promise is settled: [finally]
    aborts the controller, then the value is returned or the reason thrown.
    While the promise is pending [transform] stays suspended ([None]). *)
Definition transform_afterRegisterForm (controller : SignalRef) (registration : Deferred)
  (w : World) : option (Progress * World) :=
  match promises w !! registration with
  | Some (Fulfilled value) => Some (Return value, signal_abort controller w)
  | Some (Rejected reason) => Some (Raise reason, signal_abort controller w)
  | _ => None
  end.

(** One resumption of a suspended [transform]; [target] is read only at
    [AwaitCreateFrameSource]. *)
Definition resume (at_ : Suspended) (target : string) (w : World) : option (Progress * World) :=
  match at_ with
  | AwaitCreateFrameSource frameNonce locals options =>
      Some (transform_afterCreateFrameSource frameNonce locals options target w)
  | AwaitEnsureSidebar frameNonce formDefinition options controller =>
      Some (transform_afterEnsureSidebar frameNonce formDefinition options controller w)
  | AwaitRegisterForm controller registration =>
      transform_afterRegisterForm controller registration w
  end.

(** [FormTransformer.inputSchema] (lines 65-97), as the JSON Schema fragment
    it is. *)
Record PropertySchema := {
  p_type : string;
  p_description : string;
  p_additionalProperties : option bool;
  p_default : option JsValue;
  p_enum : option (list string);
}.

Record ObjectSchema := {
  s_type : string;
  s_properties : list (string * PropertySchema);
  s_required : list string;
}.

Definition inputSchema : ObjectSchema :=
  {| s_type := "object";
     s_properties :=
       [ ("schema",
          {| p_type := "object";
             p_description := "The JSON Schema for the form";
             p_additionalProperties := Some true;
             p_default := None; p_enum := None |});
         ("uiSchema",
          {| p_type := "object";
             p_description := "The react-jsonschema-form uiSchema for the form";
             p_additionalProperties := Some true;
             p_default := None; p_enum := None |});
         ("cancelable",
          {| p_type := "boolean";
             p_description := "Whether or not the user can cancel the form (default=true)";
             p_additionalProperties := None;
             p_default := Some (JBool true); p_enum := None |});
         ("submitCaption",
          {| p_type := "string";
             p_description := "The submit button caption (default='Submit')";
             p_additionalProperties := None;
             p_default := Some (JStr "Submit"); p_enum := None |});
         ("location",
          {| p_type := "string";
             p_description := "The location of the form (default='modal')";
             p_additionalProperties := None;
             p_default := Some (JStr "modal");
             p_enum := Some ["modal"; "sidebar"] |}) ];
     s_required := ["schema"] |}.

(** The property of [inputSchema] with the given name. *)
Definition property (name : string) : option PropertySchema :=
  snd <$> List.find (fun kv => String.eqb (fst kv) name) (s_properties inputSchema).

(** What [required] and [enum] say: a property must be present, a value is
    admitted. *)
Definition required (name : string) : bool :=
  bool_decide (name ∈ s_required inputSchema).

Definition enum_admits (name : string) (value : string) : bool :=
  match property name with
  | Some ps =>
      match p_enum ps with
      | Some values => bool_decide (value ∈ values)
      | None => true
      end
  | None => true
  end.

(** ** Everything that can happen in the content script *)

(** The calls that arrive over the messenger, the runs of [transform], and
    the signals of the page. *)
Inductive Event :=
| Call_registerForm (nonce : UUID) (definition : FormDefinition)
| Call_getFormDefinition (nonce : UUID)
| Call_resolveForm (formNonce : UUID) (values : JsValue)
| Call_cancelForm (formNonces : list UUID)
| Call_transform (frameNonce : UUID) (arg : BlockArg) (options : BlockOptions)
| Continue (at_ : Suspended) (target : string)
| NewAbortController
| Abort (s : SignalRef)
| PanelHiding.

Definition react (ev : Event) (w : World) : World :=
  match ev with
  | Call_registerForm nonce definition => void (registerForm nonce definition) w
  | Call_getFormDefinition nonce => void (getFormDefinition nonce) w
  | Call_resolveForm formNonce values => void (resolveForm formNonce values) w
  | Call_cancelForm formNonces => void (cancelForm formNonces) w
  | Call_transform frameNonce arg options => snd (transform frameNonce arg options w)
  | Continue at_ target =>
      match resume at_ target w with
      | Some (_, w') => w'
      | None => w
      end
  | NewAbortController => void newAbortController w
  | Abort s => signal_abort s w
  | PanelHiding => dispatchPanelHiding w
  end.

Definition run (evs : list Event) (w : World) : World :=
  foldl (fun w' ev => react ev w') w evs.

(** The number of ["abort"] events dispatched at a signal so far. *)
Definition is_abort_event (s : SignalRef) (e : Effect) : bool :=
  match e with
  | AbortEvent s' => bool_decide (s' = s)
  | _ => false
  end.

Definition abort_events (s : SignalRef) (w : World) : nat :=
  length (filter (fun e => is_abort_event s e = true) (trace w)).

(** Whether promise [p] is pending, is settled, and whether it changes from
    pending to settled between two worlds. *)
Definition is_pending (p : Deferred) (w : World) : bool :=
  match promises w !! p with
  | Some Pending => true
  | _ => false
  end.

Definition is_settled (p : Deferred) (w : World) : bool :=
  match promises w !! p with
  | Some (Fulfilled _) | Some (Rejected _) => true
  | _ => false
  end.

Definition settles (p : Deferred) (w w' : World) : bool :=
  is_pending p w && is_settled p w'.

(** How many of the events of a run settle promise [p]. *)
Fixpoint settlements (p : Deferred) (evs : list Event) (w : World) : nat :=
  match evs with
  | [] => 0
  | ev :: rest =>
      (if settles p w (react ev w) then 1 else 0) + settlements p rest (react ev w)
  end.

(** How many turns of the loop of [cancelForm] settle promise [p]. *)
Fixpoint loop_settlements (p : Deferred) (formNonces : list UUID) (w : World) : nat :=
  match formNonces with
  | [] => 0
  | formNonce :: rest =>
      let w' := void (cancelForm_body formNonce) w in
      (if settles p w w' then 1 else 0) + loop_settlements p rest w'
  end.

(** ** Sample data *)

Definition nonceA : UUID := "0b8f4a52-7c1d-4e3a-9f60-a1c2d3e4f5a6".
Definition nonceB : UUID := "9d2e7b10-55aa-4c0f-8b3e-0123456789ab".

Definition formA : FormDefinition :=
  {| schema := JObj [("type", JStr "object")];
     uiSchema := JObj [];
     cancelable := true;
     submitCaption := "Submit" |}.

Definition formB : FormDefinition :=
  {| schema := JObj [("type", JStr "object");
                     ("properties", JObj [("name", JObj [("type", JStr "string")])])];
     uiSchema := JObj [];
     cancelable := false;
     submitCaption := "Save" |}.

(** A submitted value with nesting, next to [JNull] and [JObj []]. *)
Definition valuesA : JsValue :=
  JObj [("name", JStr "Ada"); ("tags", JArr [JStr "x"; JNull]); ("address", JObj [("zip", JNum 12345)])].

(** [transform({schema: {type: "object"}}, ...)] with every option omitted,
    and the same call with [location: "sidebar"]. *)
Definition argA : BlockArg :=
  {| arg_schema := JObj [("type", JStr "object")];
     arg_uiSchema := None; arg_cancelable := None;
     arg_submitCaption := None; arg_location := None |}.

Definition argSidebar : BlockArg :=
  {| arg_schema := JObj [("type", JStr "object")];
     arg_uiSchema := None; arg_cancelable := None;
     arg_submitCaption := None; arg_location := Some "sidebar" |}.

(** Options without an abort signal, and with the signal of index 0. *)
Definition optionsA : BlockOptions :=
  {| logger_extensionId := nonceB; abortSignal := None |}.

Definition optionsAbortable : BlockOptions :=
  {| logger_extensionId := nonceB; abortSignal := Some 0 |}.

(** What [getThisFrame()] delivers, as JSON. *)
Definition targetA : string := "{tabId: 7, frameId: 0}".

(** The content script with one form registered under [nonceA]. *)
Definition worldA : World := void (registerForm nonceA formA) initialWorld.

(** A run of [transform] for the modal, with the caller's signal at index 0:
    the caller creates its controller, [transform] is called, and
    [getThisFrame()] delivers. [transform] is then suspended at
    [AwaitRegisterForm 1 0]. *)
Definition eventsModal : list Event :=
  [ NewAbortController;
    Call_transform nonceA argA optionsAbortable;
    Continue (AwaitCreateFrameSource nonceA (destructure argA) optionsAbortable) targetA ].

Definition worldModal : World := run eventsModal initialWorld.

(** The caller aborts while the form is shown. *)
Definition worldModalAborted : World := react (Abort 0) worldModal.

(** The user submits the form, and [transform] returns. *)
Definition worldModalResolved : World :=
  react (Call_resolveForm nonceA valuesA) worldModal.

Definition worldModalReturned : World :=
  react (Continue (AwaitRegisterForm 1 0) targetA) worldModalResolved.

(** The caller aborts while [createFrameSource] is awaited (line 115), before
    the listener of line 124 is there. *)
Definition eventsLostAbort : list Event :=
  [ NewAbortController;
    Call_transform nonceA argA optionsAbortable;
    Abort 0;
    Continue (AwaitCreateFrameSource nonceA (destructure argA) optionsAbortable) targetA ].

Definition worldLostAbort : World := run eventsLostAbort initialWorld.

(** The same for the sidebar: the caller aborts while [ensureSidebar()] is
    awaited (line 133), when the listener is there and the form is not yet
    registered. *)
Definition eventsLostAbortSidebar : list Event :=
  [ NewAbortController;
    Call_transform nonceA argSidebar optionsAbortable;
    Continue (AwaitCreateFrameSource nonceA (destructure argSidebar) optionsAbortable) targetA;
    Abort 0;
    Continue (AwaitEnsureSidebar nonceA (formDefinitionOf (destructure argSidebar))
                optionsAbortable 1) targetA ].

Definition worldLostAbortSidebar : World := run eventsLostAbortSidebar initialWorld.

(** A run of [transform] for the sidebar, suspended at
    [AwaitRegisterForm 1 0], and the user closing the sidebar. *)
Definition eventsSidebar : list Event :=
  [ NewAbortController;
    Call_transform nonceA argSidebar optionsAbortable;
    Continue (AwaitCreateFrameSource nonceA (destructure argSidebar) optionsAbortable) targetA;
    Continue (AwaitEnsureSidebar nonceA formA optionsAbortable 1) targetA ].

Definition worldSidebar : World := run eventsSidebar initialWorld.

Definition worldSidebarHidden : World := react PanelHiding worldSidebar.

(** The content script with forms under [nonceA] and [nonceB]. *)
Definition worldAB : World := void (registerForm nonceB formB) worldA.

(** A world of another context, with the same form registered. *)
Definition worldBackground : World :=
  {| context := "background"; forms := forms worldA; promises := promises worldA;
     signals := []; windowListeners := []; trace := [] |}.

(** The sidebar run with the form submitted, and [transform] returned. *)
Definition worldSidebarResolved : World :=
  react (Call_resolveForm nonceA valuesA) worldSidebar.

Definition worldSidebarReturned : World :=
  react (Continue (AwaitRegisterForm 1 0) targetA) worldSidebarResolved.

(** ** Statements that the code does not meet *)

(** A second [registerForm] under a nonce that has an entry is rejected. *)
Definition rejects_duplicate (w : World) (nonce : UUID) (d : FormDefinition) : Prop :=
  is_Some (forms w !! nonce) → ∃ e, fst (registerForm nonce d w) = Throw e.

(** A listener for ["abort"] dangles when it is registered at a signal that
    can still fire. *)
Definition dangling (l : AbortListener) (w : World) : Prop :=
  ∃ s sig, signals w !! s = Some sig ∧ aborted sig = false ∧ l ∈ abortListeners sig.

(** Every listener that [transform] registered for a request is released. *)
Definition listeners_released (frameNonce : UUID) (controller : SignalRef) (w : World) : Prop :=
  ¬ dangling (CallerAbortListener frameNonce) w
  ∧ ¬ dangling (ControllerAbortListener frameNonce) w
  ∧ ∀ l, l ∈ windowListeners w → option_signal l ≠ controller.

(** ** Invariants *)

(** Every entry of [forms] holds a pending promise, and no promise is held
    by two entries. *)
Record store_ok (w : World) : Prop := {
  ok_context : context w = "contentScript";
  ok_pending : ∀ t f, forms w !! t = Some f → promises w !! registration f = Some Pending;
  ok_unshared : ∀ t1 t2 f1 f2,
    forms w !! t1 = Some f1 → forms w !! t2 = Some f2 →
    registration f1 = registration f2 → t1 = t2;
}.

(** A computation is quiet when it touches no signal, no listener on
    [window], and dispatches no ["abort"] event. *)
Definition quiet {A} (m : M A) : Prop :=
  ∀ w, signals (snd (m w)) = signals w
     ∧ windowListeners (snd (m w)) = windowListeners w
     ∧ ∀ s, abort_events s (snd (m w)) = abort_events s w.

(** A step of the world is still when it is quiet in the same sense. *)
Definition still (f : World → World) : Prop :=
  ∀ w, signals (f w) = signals w
     ∧ windowListeners (f w) = windowListeners w
     ∧ ∀ s, abort_events s (f w) = abort_events s w.

(** The ["abort"] event was dispatched once at an aborted signal and never
    at another. *)
Definition trace_ok (w : World) : Prop :=
  ∀ s, abort_events s w = if signal_aborted s w then 1 else 0.

(** No listener on [window] is bound to an aborted signal. *)
Definition listeners_ok (w : World) : Prop :=
  ∀ l, l ∈ windowListeners w → signal_aborted (option_signal l) w = false.

Record world_ok (w : World) : Prop := {
  w_store : store_ok w;
  w_trace : trace_ok w;
  w_listeners : listeners_ok w;
}.

(** Promise [p] is in state [x]. *)
Definition stays (p : Deferred) (x : PromiseState) (w : World) : Prop :=
  promises w !! p = Some x.

(** Promise [p] is pending and no entry of [forms] holds it. *)
Definition unheld (p : Deferred) (w : World) : Prop :=
  context w = "contentScript"
  ∧ promises w !! p = Some Pending
  ∧ ∀ t f, forms w !! t = Some f → registration f ≠ p.

(** Signal [c] is aborted. *)
Definition aborted_at (c : SignalRef) (w : World) : Prop := signal_aborted c w = true.

(** Promise [p] is rejected with the [CancelError] of [cancelForm]. *)
Definition cancelled (p : Deferred) (w : World) : Prop :=
  stays p (Rejected (CancelError "User cancelled the action")) w.

(** The form is registered under the nonce, or its promise is cancelled
    already. *)
Definition registered_or_cancelled (n : UUID) (f : RegisteredForm) (w : World) : Prop :=
  store_ok w ∧ (forms w !! n = Some f ∨ cancelled (registration f) w).

(** Every rejected promise carries the error of [cancelForm]. *)
Definition only_cancellations (w : World) : Prop :=
  ∀ p e, promises w !! p = Some (Rejected e) →
    e = CancelError "User cancelled the action".

(** Promise [p] is not fulfilled with [v], unless it was in [w0]. *)
Definition not_newly_fulfilled (w0 : World) (p : Deferred) (v : JsValue) (w : World) : Prop :=
  promises w !! p = Some (Fulfilled v) → promises w0 !! p = Some (Fulfilled v).

(** The form is cancelled and its entry is gone. *)
Definition cancelled_and_gone (n : UUID) (f : RegisteredForm) (w : World) : Prop :=
  store_ok w ∧ cancelled (registration f) w ∧ forms w !! n = None.

(** The form is registered under the nonce, or cancelled and gone. *)
Definition registered_or_gone (n : UUID) (f : RegisteredForm) (w : World) : Prop :=
  store_ok w
  ∧ (forms w !! n = Some f ∨ (cancelled (registration f) w ∧ forms w !! n = None)).

(** The calls of [hideSidebarForm] that the listeners of a signal make. *)
Definition hides (ls : list AbortListener) : list Effect :=
  flat_map (fun l => match l with
                     | ControllerAbortListener n => [HideSidebarForm n]
                     | CallerAbortListener _ => []
                     end) ls.

(** The listener that [transform] puts on [window] for controller [c]. *)
Definition panelHidingListener (c : SignalRef) : PanelHidingListener :=
  {| callback_controller := c; option_signal := c |}.

(** What holds of the form of a sidebar run while [PANEL_HIDING_EVENT] is
    dispatched. *)
Record hiding_inv (n : UUID) (f : RegisteredForm) (c : SignalRef) (w : World) : Prop := {
  hi_world : world_ok w;
  hi_listener : ∃ sig, signals w !! c = Some sig
                  ∧ ControllerAbortListener n ∈ abortListeners sig;
  hi_form : registered_or_gone n f w;
  hi_aborted : signal_aborted c w = true →
               cancelled_and_gone n f w ∧ HideSidebarForm n ∈ trace w;
  hi_pending : signal_aborted c w = false → panelHidingListener c ∈ windowListeners w;
}.

(** The warning of [registerForm], when the nonce has an entry. *)
Definition warned (nonce : UUID) (w : World) : list Effect :=
  if bool_decide (is_Some (forms w !! nonce))
  then [ConsoleWarn "A form was already registered with nonce %s" nonce]
  else [].

(** Listener [l] is registered for ["abort"] at signal [s]. *)
Definition listens (s : SignalRef) (l : AbortListener) (w : World) : Prop :=
  ∃ sig, signals w !! s = Some sig ∧ l ∈ abortListeners sig.

(** * Properties *)

(** ** Running the monad *)

Ltac run_monad :=
  unfold void, mbind, M_bind, bind, mret, M_ret, ret, throw,
    forms_has, forms_get, forms_set, forms_delete, console_warn,
    pDefer, deferred_resolve, deferred_reject, hideSidebarForm,
    newAbortController; simpl.

Lemma World_eq (w w' : World) :
  context w = context w' → forms w = forms w' → promises w = promises w' →
  signals w = signals w' → windowListeners w = windowListeners w' →
  trace w = trace w' → w = w'.
Proof. destruct w, w'; simpl; intros; by subst. Qed.

Lemma expectContext_pass (w : World) :
  context w = "contentScript" → expectContext "contentScript" w = (Ok tt, w).
Proof. intros H. unfold expectContext. by rewrite decide_True. Qed.

Lemma expectContext_stop (w : World) :
  context w ≠ "contentScript" →
  expectContext "contentScript" w = (Throw (ContextError "contentScript"), w).
Proof. intros H. unfold expectContext. by rewrite decide_False. Qed.

(** ** The promise heap *)

Lemma settle_length d s ps : length (settle d s ps) = length ps.
Proof. unfold settle. destruct (ps !! d) as [[]|]; by rewrite ?length_insert. Qed.

Lemma settle_pending d s ps :
  ps !! d = Some Pending → settle d s ps !! d = Some s.
Proof.
  intros H. unfold settle. rewrite H.
  apply list_lookup_insert_eq. by eapply lookup_lt_Some.
Qed.

Lemma settle_other d s ps p : p ≠ d → settle d s ps !! p = ps !! p.
Proof.
  intros H. unfold settle. destruct (ps !! d) as [[]|]; try done.
  by apply list_lookup_insert_ne.
Qed.

Lemma settle_settled d s ps p x :
  ps !! p = Some x → x ≠ Pending → settle d s ps !! p = Some x.
Proof.
  intros Hp Hx. destruct (decide (p = d)) as [->|Hne].
  - unfold settle. rewrite Hp. by destruct x.
  - by rewrite settle_other.
Qed.

Lemma settle_None d s ps : ps !! d = None → settle d s ps = ps.
Proof. intros H. unfold settle. by rewrite H. Qed.

(** ** The four operations in the content script *)

Section InContentScript.
Variable w : World.
Hypothesis Hctx : context w = "contentScript".

Lemma registerForm_run nonce d :
  ∃ w', registerForm nonce d w = (Ok (length (promises w)), w')
    ∧ context w' = context w
    ∧ forms w' = <[nonce := {| definition := d; registration := length (promises w) |}]> (forms w)
    ∧ promises w' = (promises w ++ [Pending])%list
    ∧ signals w' = signals w
    ∧ windowListeners w' = windowListeners w
    ∧ trace w' =
        (trace w ++
           if bool_decide (is_Some (forms w !! nonce))
           then [ConsoleWarn "A form was already registered with nonce %s" nonce]
           else [])%list.
Proof.
  unfold registerForm. run_monad. rewrite expectContext_pass by done.
  destruct (bool_decide (is_Some (forms w !! nonce))); simpl;
    eexists; (split; [reflexivity|]); simpl; by rewrite ?app_nil_r.
Qed.

Lemma getFormDefinition_run nonce :
  getFormDefinition nonce w =
    match forms w !! nonce with
    | Some f => (Ok (definition f), w)
    | None => (Throw (TypeError "Cannot read properties of undefined (reading 'definition')"), w)
    end.
Proof.
  unfold getFormDefinition. run_monad. rewrite expectContext_pass by done.
  by destruct (forms w !! nonce).
Qed.

Lemma resolveForm_missing formNonce values :
  forms w !! formNonce = None →
  resolveForm formNonce values w = (Throw (Error ("Form not registered: " +:+ formNonce)), w).
Proof.
  intros H. unfold resolveForm. run_monad.
  rewrite expectContext_pass by done. by rewrite H.
Qed.

Lemma resolveForm_run formNonce values f :
  forms w !! formNonce = Some f →
  ∃ w', resolveForm formNonce values w = (Ok tt, w')
    ∧ context w' = context w
    ∧ forms w' = delete formNonce (forms w)
    ∧ promises w' = settle (registration f) (Fulfilled values) (promises w)
    ∧ signals w' = signals w
    ∧ windowListeners w' = windowListeners w
    ∧ trace w' = trace w.
Proof.
  intros H. unfold resolveForm, unregisterForm. run_monad.
  rewrite expectContext_pass by done. rewrite H. simpl.
  rewrite expectContext_pass by done. simpl. eauto 10.
Qed.

Lemma cancelForm_body_run formNonce :
  ∃ w', cancelForm_body formNonce w = (Ok tt, w')
    ∧ context w' = context w
    ∧ forms w' = delete formNonce (forms w)
    ∧ promises w' =
        match forms w !! formNonce with
        | Some f => settle (registration f) (Rejected (CancelError "User cancelled the action")) (promises w)
        | None => promises w
        end
    ∧ signals w' = signals w
    ∧ windowListeners w' = windowListeners w
    ∧ trace w' = trace w.
Proof.
  unfold cancelForm_body, unregisterForm. run_monad.
  destruct (forms w !! formNonce) as [f|]; simpl;
    rewrite expectContext_pass by done; simpl; eauto 10.
Qed.

Lemma cancelForm_run formNonces :
  cancelForm formNonces w = cancelForm_loop formNonces w.
Proof. unfold cancelForm. run_monad. by rewrite expectContext_pass. Qed.
End InContentScript.

(** ** The invariant of the store *)


Lemma store_ok_initial : store_ok initialWorld.
Proof. split; simpl; [done | intros t f H | intros t1 t2 f1 f2 H]; by rewrite lookup_empty in H. Qed.

Lemma store_ok_same (w w' : World) :
  context w' = context w → forms w' = forms w → promises w' = promises w →
  store_ok w → store_ok w'.
Proof.
  intros Hc Hf Hp [H1 H2 H3]. split; rewrite ?Hc, ?Hf, ?Hp; try done.
Qed.

Lemma store_ok_registerForm w nonce d :
  store_ok w → store_ok (void (registerForm nonce d) w).
Proof.
  intros [Hc Hpend Hinj].
  destruct (registerForm_run w Hc nonce d) as (w' & Hrun & Hc' & Hf & Hp & _).
  unfold void. rewrite Hrun. simpl. split.
  - congruence.
  - intros t f. rewrite Hf, Hp, lookup_insert. case_decide as Ht.
    + intros [= <-]. simpl. rewrite lookup_app_r by lia.
      by rewrite Nat.sub_diag.
    + intros H. rewrite lookup_app_l; [by eapply Hpend|].
      eapply lookup_lt_Some, Hpend, H.
  - intros t1 t2 f1 f2. rewrite Hf, !lookup_insert.
    case_decide as H1; case_decide as H2; try congruence.
    + intros [= <-] H Heq. simpl in Heq.
      apply Hpend, lookup_lt_Some in H. lia.
    + intros H [= <-] Heq. simpl in Heq.
      apply Hpend, lookup_lt_Some in H. lia.
    + apply Hinj.
Qed.

Lemma store_ok_delete_settle w w' t s :
  store_ok w → context w' = context w →
  forms w' = delete t (forms w) →
  promises w' =
    match forms w !! t with
    | Some f => settle (registration f) s (promises w)
    | None => promises w
    end →
  store_ok w'.
Proof.
  intros [Hc Hpend Hinj] Hc' Hf Hp. split.
  - congruence.
  - intros t' f'. rewrite Hf, Hp, lookup_delete. case_decide as Ht; [done|].
    intros H. destruct (forms w !! t) as [f|] eqn:Hft; [|by eapply Hpend].
    rewrite settle_other; [by eapply Hpend|].
    intros Heq. apply Ht. symmetry. by eapply Hinj.
  - intros t1 t2 f1 f2. rewrite Hf, !lookup_delete.
    case_decide; [done|]. case_decide; [done|]. apply Hinj.
Qed.

Lemma store_ok_resolveForm w formNonce values :
  store_ok w → store_ok (void (resolveForm formNonce values) w).
Proof.
  intros Hok. pose proof (ok_context _ Hok) as Hc. unfold void.
  destruct (forms w !! formNonce) as [f|] eqn:Hf.
  - destruct (resolveForm_run w Hc formNonce values f Hf) as (w' & -> & ? & ? & Hp & _).
    simpl. eapply store_ok_delete_settle; eauto. by rewrite Hf.
  - by rewrite resolveForm_missing.
Qed.

Lemma store_ok_cancelForm_body w formNonce :
  store_ok w → store_ok (void (cancelForm_body formNonce) w).
Proof.
  intros Hok. pose proof (ok_context _ Hok) as Hc. unfold void.
  destruct (cancelForm_body_run w Hc formNonce) as (w' & -> & ? & ? & Hp & _).
  simpl. eapply store_ok_delete_settle; eauto.
Qed.

Lemma cancelForm_loop_cons formNonce rest w :
  context w = "contentScript" →
  cancelForm_loop (formNonce :: rest) w =
    cancelForm_loop rest (void (cancelForm_body formNonce) w).
Proof.
  intros Hc. simpl. unfold mbind, M_bind, bind, void.
  by destruct (cancelForm_body_run w Hc formNonce) as (w' & -> & _).
Qed.

Lemma store_ok_cancelForm_loop formNonces w :
  store_ok w → store_ok (void (cancelForm_loop formNonces) w).
Proof.
  revert w. induction formNonces as [|n rest IH]; intros w Hok; [done|].
  unfold void. rewrite cancelForm_loop_cons by apply Hok.
  apply IH. by apply store_ok_cancelForm_body.
Qed.

Lemma store_ok_cancelForm w formNonces :
  store_ok w → store_ok (void (cancelForm formNonces) w).
Proof.
  intros Hok. unfold void. rewrite cancelForm_run by apply Hok.
  by apply store_ok_cancelForm_loop.
Qed.

Lemma store_ok_getFormDefinition w nonce :
  store_ok w → store_ok (void (getFormDefinition nonce) w).
Proof.
  intros Hok. unfold void. rewrite getFormDefinition_run by apply Hok.
  by destruct (forms w !! nonce).
Qed.

(** ** What the protocol leaves alone *)


Lemma abort_events_emit s e w :
  abort_events s (emit e w) = abort_events s w + (if is_abort_event s e then 1 else 0).
Proof.
  unfold abort_events. simpl. rewrite filter_app, length_app. f_equal.
  rewrite filter_cons, filter_nil. destruct (is_abort_event s e) eqn:H.
  - by rewrite decide_True.
  - by rewrite decide_False.
Qed.

Lemma quiet_ret {A} (a : A) : quiet (ret a).
Proof. by intros w. Qed.

Lemma quiet_throw {A} e : quiet (@throw A e).
Proof. by intros w. Qed.

Lemma quiet_bind {A B} (m : M A) (k : A → M B) :
  quiet m → (∀ a, quiet (k a)) → quiet (m ≫= k).
Proof.
  intros Hm Hk w. unfold mbind, M_bind, bind.
  specialize (Hm w). destruct (m w) as [[a|e] w1]; simpl in *; [|done].
  destruct (Hk a w1) as (-> & -> & H), Hm as (-> & -> & H').
  repeat split; try done. intros s. by rewrite H, H'.
Qed.

Lemma quiet_expectContext name : quiet (expectContext name).
Proof. intros w. unfold expectContext. by case_decide. Qed.

Lemma quiet_pDefer : quiet pDefer.
Proof. by intros w. Qed.

Lemma quiet_deferred_resolve d v : quiet (deferred_resolve d v).
Proof. by intros w. Qed.

Lemma quiet_deferred_reject d e : quiet (deferred_reject d e).
Proof. by intros w. Qed.

Lemma quiet_forms_has n : quiet (forms_has n).
Proof. by intros w. Qed.

Lemma quiet_forms_get n : quiet (forms_get n).
Proof. by intros w. Qed.

Lemma quiet_forms_set n f : quiet (forms_set n f).
Proof. by intros w. Qed.

Lemma quiet_forms_delete n : quiet (forms_delete n).
Proof. by intros w. Qed.

Lemma quiet_console_warn f a : quiet (console_warn f a).
Proof.
  intros w. repeat split; try done. intros s. unfold console_warn. simpl.
  rewrite abort_events_emit. simpl. lia.
Qed.

Lemma quiet_hideSidebarForm n : quiet (hideSidebarForm n).
Proof.
  intros w. repeat split; try done. intros s. unfold hideSidebarForm. simpl.
  rewrite abort_events_emit. simpl. lia.
Qed.

Create HintDb quiet.
#[global] Hint Resolve quiet_ret quiet_throw quiet_expectContext quiet_pDefer
  quiet_deferred_resolve quiet_deferred_reject quiet_forms_has quiet_forms_get
  quiet_forms_set quiet_forms_delete quiet_console_warn quiet_hideSidebarForm : quiet.

Ltac quiet_steps :=
  repeat first
    [ apply quiet_bind; [|intros ?]
    | match goal with |- quiet (match ?x with _ => _ end) => destruct x end
    | solve [auto with quiet] ].

Lemma quiet_registerForm nonce d : quiet (registerForm nonce d).
Proof. unfold registerForm. quiet_steps. Qed.

Lemma quiet_unregisterForm n : quiet (unregisterForm n).
Proof. unfold unregisterForm. quiet_steps. Qed.

#[global] Hint Resolve quiet_registerForm quiet_unregisterForm : quiet.

Lemma quiet_getFormDefinition n : quiet (getFormDefinition n).
Proof. unfold getFormDefinition. quiet_steps. Qed.

Lemma quiet_resolveForm n v : quiet (resolveForm n v).
Proof. unfold resolveForm. quiet_steps. Qed.

Lemma quiet_cancelForm_body n : quiet (cancelForm_body n).
Proof. unfold cancelForm_body. quiet_steps. Qed.

#[global] Hint Resolve quiet_cancelForm_body : quiet.

Lemma quiet_cancelForm_loop ns : quiet (cancelForm_loop ns).
Proof.
  induction ns as [|n rest IH]; simpl.
  - auto with quiet.
  - quiet_steps.
Qed.

#[global] Hint Resolve quiet_cancelForm_loop : quiet.

Lemma quiet_cancelForm ns : quiet (cancelForm ns).
Proof. unfold cancelForm. quiet_steps. Qed.

#[global] Hint Resolve quiet_getFormDefinition quiet_resolveForm quiet_cancelForm : quiet.


Lemma still_void {A} (m : M A) : quiet m → still (void m).
Proof. intros H w. apply H. Qed.

Lemma still_compose f g : still f → still g → still (fun w => g (f w)).
Proof.
  intros Hf Hg w. destruct (Hf w) as (<- & <- & H1), (Hg (f w)) as (-> & -> & H2).
  repeat split; try done. intros s. by rewrite H2, H1.
Qed.

Lemma still_runAbortListener l : still (runAbortListener l).
Proof.
  destruct l as [n|n]; simpl.
  - apply still_void. auto with quiet.
  - apply (still_compose (void (hideSidebarForm n)) (void (cancelForm [n])));
      apply still_void; auto with quiet.
Qed.

Lemma still_foldl {X} (f : X → World → World) (xs : list X) :
  (∀ x, still (f x)) → still (fun w => foldl (fun w' x => f x w') w xs).
Proof.
  intros Hf. induction xs as [|x xs IH]; simpl; [done|].
  apply (still_compose (f x) (fun w => foldl (fun w' x => f x w') w xs)); auto.
Qed.

(** ** [controller.abort()] *)

Lemma signal_abort_noop s w :
  signal_aborted s w = true ∨ signals w !! s = None → signal_abort s w = w.
Proof.
  unfold signal_aborted, signal_abort.
  destruct (signals w !! s) as [sig|]; [|done].
  intros [->|?]; done.
Qed.

Lemma signal_abort_run s w sig :
  signals w !! s = Some sig → aborted sig = false →
  signals (signal_abort s w)
    = <[s := {| aborted := true; abortListeners := abortListeners sig |}]> (signals w)
  ∧ windowListeners (signal_abort s w)
    = filter (fun l => option_signal l ≠ s) (windowListeners w)
  ∧ ∀ s', abort_events s' (signal_abort s w)
          = abort_events s' w + (if bool_decide (s = s') then 1 else 0).
Proof.
  intros Hs Ha. unfold signal_abort. rewrite Hs, Ha.
  match goal with |- context [foldl _ ?w0 ?ls] =>
    destruct (still_foldl runAbortListener ls still_runAbortListener w0) as (-> & -> & H)
  end.
  repeat split; try done. intros s'. by rewrite H, abort_events_emit.
Qed.

Lemma signal_aborted_abort s s' w :
  signal_aborted s' (signal_abort s w) =
    if bool_decide (s' = s ∧ is_Some (signals w !! s)) then true else signal_aborted s' w.
Proof.
  destruct (signals w !! s) as [sig|] eqn:Hs.
  - destruct (aborted sig) eqn:Ha.
    + rewrite signal_abort_noop by (unfold signal_aborted; rewrite Hs; auto).
      case_bool_decide as H; [|done]. destruct H as [-> _].
      unfold signal_aborted. by rewrite Hs.
    + destruct (signal_abort_run s w sig Hs Ha) as (Hsig & _).
      unfold signal_aborted at 1. rewrite Hsig.
      case_bool_decide as H.
      * destruct H as [-> _]. rewrite list_lookup_insert_eq; [done|].
        by eapply lookup_lt_Some.
      * rewrite list_lookup_insert_ne; [done|]. intros ->. apply H. eauto.
  - rewrite signal_abort_noop by auto. case_bool_decide as H; [|done].
    by destruct H as [_ [? ?]].
Qed.

(** ** The invariants of the signals *)



Lemma trace_ok_still f w : still f → trace_ok w → trace_ok (f w).
Proof.
  intros Hf H s. destruct (Hf w) as (Hs & _ & ->). rewrite H.
  unfold signal_aborted. by rewrite Hs.
Qed.

Lemma listeners_ok_still f w : still f → listeners_ok w → listeners_ok (f w).
Proof.
  intros Hf H l. destruct (Hf w) as (Hs & -> & _). intros Hl.
  unfold signal_aborted. rewrite Hs. by apply H.
Qed.

Lemma trace_ok_signal_abort s w : trace_ok w → trace_ok (signal_abort s w).
Proof.
  intros H s'. rewrite signal_aborted_abort.
  destruct (signals w !! s) as [sig|] eqn:Hs.
  - destruct (aborted sig) eqn:Ha.
    + rewrite signal_abort_noop by (unfold signal_aborted; rewrite Hs; auto).
      rewrite H. case_bool_decide as Hd; [|done]. destruct Hd as [-> _].
      unfold signal_aborted. by rewrite Hs, Ha.
    + destruct (signal_abort_run s w sig Hs Ha) as (_ & _ & ->). rewrite H.
      destruct (decide (s' = s)) as [->|Hne].
      * rewrite !bool_decide_true by eauto.
        unfold signal_aborted. by rewrite Hs, Ha.
      * rewrite !bool_decide_false by (try intros [? _]; congruence). lia.
  - rewrite signal_abort_noop by auto. rewrite H.
    case_bool_decide as Hd; [|done]. by destruct Hd as [_ [? ?]].
Qed.

Lemma listeners_ok_signal_abort s w : listeners_ok w → listeners_ok (signal_abort s w).
Proof.
  intros H l. rewrite signal_aborted_abort.
  destruct (signals w !! s) as [sig|] eqn:Hs.
  - destruct (aborted sig) eqn:Ha.
    + rewrite signal_abort_noop by (unfold signal_aborted; rewrite Hs; auto).
      intros Hl. specialize (H l Hl). case_bool_decide as Hd; [|done].
      destruct Hd as [Heq _]. rewrite Heq in H.
      unfold signal_aborted in H. by rewrite Hs, Ha in H.
    + destruct (signal_abort_run s w sig Hs Ha) as (_ & -> & _).
      intros [Hne Hl]%list_elem_of_filter.
      rewrite bool_decide_false by (by intros [? _]). by apply H.
  - rewrite signal_abort_noop by auto. intros Hl.
    rewrite bool_decide_false; [by apply H|]. by intros [_ [? ?]].
Qed.

Lemma foldl_invariant {X} (P : World → Prop) (f : X → World → World) (xs : list X) (w : World) :
  (∀ x w', P w' → P (f x w')) → P w → P (foldl (fun w' x => f x w') w xs).
Proof. intros Hf. revert w. induction xs as [|x xs IH]; simpl; auto. Qed.

Lemma store_ok_runAbortListener l w : store_ok w → store_ok (runAbortListener l w).
Proof.
  intros H. destruct l as [n|n]; simpl.
  - by apply store_ok_cancelForm.
  - apply store_ok_cancelForm. by eapply store_ok_same; [..|apply H].
Qed.

Lemma store_ok_signal_abort s w : store_ok w → store_ok (signal_abort s w).
Proof.
  intros H. unfold signal_abort.
  destruct (signals w !! s) as [sig|]; [|done].
  destruct (aborted sig); [done|].
  apply foldl_invariant; [intros; by apply store_ok_runAbortListener|].
  by eapply store_ok_same; [..|apply H].
Qed.

(** ** The invariant of the world *)


Lemma world_ok_initial : world_ok initialWorld.
Proof.
  split; [apply store_ok_initial|done|].
  intros l Hl. simpl in Hl. by apply elem_of_nil in Hl.
Qed.

Lemma world_ok_void {A} (m : M A) w :
  quiet m → (store_ok w → store_ok (void m w)) → world_ok w → world_ok (void m w).
Proof.
  intros Hq Hs [H1 H2 H3]. split; [auto|..].
  - by apply (trace_ok_still (void m)); [apply still_void|].
  - by apply (listeners_ok_still (void m)); [apply still_void|].
Qed.

Lemma world_ok_signal_abort s w : world_ok w → world_ok (signal_abort s w).
Proof.
  intros [H1 H2 H3]. split;
    auto using store_ok_signal_abort, trace_ok_signal_abort, listeners_ok_signal_abort.
Qed.

Lemma world_ok_dispatchPanelHiding w : world_ok w → world_ok (dispatchPanelHiding w).
Proof.
  intros H. unfold dispatchPanelHiding.
  apply (foldl_invariant world_ok
           (fun l w' => if bool_decide (l ∈ windowListeners w')
                        then signal_abort (callback_controller l) w' else w')); [|done].
  intros l w' Hw'. case_bool_decide; [by apply world_ok_signal_abort|done].
Qed.

Lemma world_ok_emit e w :
  (∀ s, is_abort_event s e = false) → world_ok w → world_ok (emit e w).
Proof.
  intros He [H1 H2 H3]. split.
  - by eapply store_ok_same; [..|apply H1].
  - intros s. rewrite abort_events_emit, He, H2. unfold signal_aborted. simpl. lia.
  - done.
Qed.

Lemma world_ok_newAbortController w : world_ok w → world_ok (void newAbortController w).
Proof.
  intros [H1 H2 H3]. split.
  - by eapply store_ok_same; [..|apply H1].
  - intros s. unfold abort_events, signal_aborted. simpl.
    specialize (H2 s). unfold abort_events, signal_aborted in H2. rewrite H2.
    destruct (decide (s < length (signals w))) as [Hlt|Hge].
    + by rewrite lookup_app_l.
    + rewrite (lookup_ge_None_2 (signals w)) by lia.
      rewrite lookup_app_r by lia.
      by destruct (s - length (signals w)) as [|[|?]].
  - intros l Hl. specialize (H3 l Hl). unfold signal_aborted in *. simpl.
    destruct (decide (option_signal l < length (signals w))) as [Hlt|Hge].
    + by rewrite lookup_app_l.
    + rewrite lookup_app_r by lia.
      by destruct (option_signal l - length (signals w)) as [|[|?]].
Qed.

Lemma signal_aborted_addEventListener s l s' w :
  signal_aborted s' (void (signal_addEventListener s l) w) = signal_aborted s' w.
Proof.
  unfold signal_aborted, void, signal_addEventListener.
  destruct (signals w !! s) as [sig|] eqn:Hs; simpl; [|done].
  destruct (decide (s' = s)) as [->|Hne].
  - rewrite list_lookup_insert_eq by (by eapply lookup_lt_Some). by rewrite Hs.
  - by rewrite list_lookup_insert_ne.
Qed.

Lemma world_ok_signal_addEventListener s l w :
  world_ok w → world_ok (void (signal_addEventListener s l) w).
Proof.
  intros [H1 H2 H3].
  assert (Hsame : context (void (signal_addEventListener s l) w) = context w
                ∧ forms (void (signal_addEventListener s l) w) = forms w
                ∧ promises (void (signal_addEventListener s l) w) = promises w
                ∧ windowListeners (void (signal_addEventListener s l) w) = windowListeners w
                ∧ trace (void (signal_addEventListener s l) w) = trace w).
  { unfold void, signal_addEventListener. by destruct (signals w !! s). }
  destruct Hsame as (Hc & Hf & Hp & Hl & Ht). split.
  - by eapply store_ok_same; [..|apply H1].
  - intros s'. rewrite signal_aborted_addEventListener, <- H2.
    unfold abort_events. by rewrite Ht.
  - intros l'. rewrite Hl, signal_aborted_addEventListener. apply H3.
Qed.

Lemma world_ok_window_addEventListener l w :
  world_ok w → world_ok (void (window_addEventListener l) w).
Proof.
  intros [H1 H2 H3]. unfold void, window_addEventListener.
  destruct (signal_aborted (option_signal l) w) eqn:Ha; simpl; [done|].
  split; [by eapply store_ok_same; [..|apply H1] | done |].
  intros l'. simpl. intros [Hl|Hl%list_elem_of_singleton]%elem_of_app.
  - by apply H3.
  - by subst.
Qed.

Lemma world_ok_registerForm nonce d w : world_ok w → world_ok (void (registerForm nonce d) w).
Proof. apply world_ok_void; [auto with quiet | apply store_ok_registerForm]. Qed.

Lemma registerForm_returns w nonce d :
  context w = "contentScript" →
  registerForm nonce d w = (Ok (length (promises w)), void (registerForm nonce d) w).
Proof.
  intros Hc. unfold void.
  by destruct (registerForm_run w Hc nonce d) as (w' & -> & _).
Qed.

Lemma world_ok_try_registerForm c nonce d w :
  world_ok w → world_ok (snd (try_registerForm c nonce d w)).
Proof.
  intros H. unfold try_registerForm.
  rewrite registerForm_returns by apply H. simpl.
  by apply world_ok_registerForm.
Qed.

Lemma world_ok_afterCreateFrameSource nonce locals options target w :
  world_ok w →
  world_ok (snd (transform_afterCreateFrameSource nonce locals options target w)).
Proof.
  intros H. unfold transform_afterCreateFrameSource.
  set (w1 := match abortSignal options with Some s => _ | None => w end).
  assert (H1 : world_ok w1).
  { subst w1. destruct (abortSignal options); [|done].
    by apply world_ok_signal_addEventListener. }
  case_decide; simpl.
  - apply world_ok_emit; [done|]. by apply world_ok_newAbortController.
  - apply world_ok_try_registerForm, world_ok_emit; [done|].
    by apply world_ok_newAbortController.
Qed.

Lemma world_ok_afterEnsureSidebar nonce d options c w :
  world_ok w → world_ok (snd (transform_afterEnsureSidebar nonce d options c w)).
Proof.
  intros H. unfold transform_afterEnsureSidebar.
  apply world_ok_try_registerForm, world_ok_signal_addEventListener,
    world_ok_window_addEventListener, world_ok_emit; done.
Qed.

Lemma world_ok_react ev w : world_ok w → world_ok (react ev w).
Proof.
  intros H. destruct ev as [n d|n|n v|ns|n arg options|at_ target| |s| ]; simpl.
  - by apply world_ok_registerForm.
  - apply world_ok_void; [auto with quiet | apply store_ok_getFormDefinition | done].
  - apply world_ok_void; [auto with quiet | apply store_ok_resolveForm | done].
  - apply world_ok_void; [auto with quiet | apply store_ok_cancelForm | done].
  - unfold transform. rewrite expectContext_pass by apply H. done.
  - destruct at_ as [n locals options|n d options c|c p]; simpl.
    + by apply world_ok_afterCreateFrameSource.
    + by apply world_ok_afterEnsureSidebar.
    + unfold transform_afterRegisterForm.
      destruct (promises w !! p) as [[| |]|]; try done; by apply world_ok_signal_abort.
  - by apply world_ok_newAbortController.
  - by apply world_ok_signal_abort.
  - by apply world_ok_dispatchPanelHiding.
Qed.

Lemma world_ok_run evs w : world_ok w → world_ok (run evs w).
Proof. intros H. unfold run. by apply foldl_invariant; [apply world_ok_react|]. Qed.

Lemma world_ok_reachable evs : world_ok (run evs initialWorld).
Proof. apply world_ok_run, world_ok_initial. Qed.

(** ** Invariants that speak of the store only *)

(** A property of [context], [forms] and [promises] that the three writers
    of the store preserve is preserved by everything that can happen. *)
Section StoreInvariant.
Variable P : World → Prop.
Hypothesis P_store_only : ∀ w w',
  context w' = context w → forms w' = forms w → promises w' = promises w →
  P w → P w'.
Hypothesis P_registerForm : ∀ w n d, P w → P (void (registerForm n d) w).
Hypothesis P_resolveForm : ∀ w n v, P w → P (void (resolveForm n v) w).
Hypothesis P_cancelForm_body : ∀ w n, P w → P (void (cancelForm_body n) w).

Lemma inv_cancelForm_loop ns w :
  context w = "contentScript" → P w → P (void (cancelForm_loop ns) w).
Proof.
  revert w. induction ns as [|n rest IH]; intros w Hc H; [done|].
  unfold void. rewrite cancelForm_loop_cons by done.
  apply IH; [|by apply P_cancelForm_body].
  unfold void. destruct (cancelForm_body_run w Hc n) as (w' & -> & Hc' & _).
  simpl. congruence.
Qed.

Lemma inv_cancelForm ns w : P w → P (void (cancelForm ns) w).
Proof.
  intros H. destruct (decide (context w = "contentScript")) as [Hc|Hc].
  - unfold void. rewrite cancelForm_run by done. by apply inv_cancelForm_loop.
  - unfold void, cancelForm, mbind, M_bind, bind.
    by rewrite expectContext_stop.
Qed.

Lemma inv_getFormDefinition n w : P w → P (void (getFormDefinition n) w).
Proof.
  intros H. destruct (decide (context w = "contentScript")) as [Hc|Hc].
  - unfold void. rewrite getFormDefinition_run by done.
    by destruct (forms w !! n).
  - unfold void, getFormDefinition, mbind, M_bind, bind.
    by rewrite expectContext_stop.
Qed.

Lemma inv_runAbortListener l w : P w → P (runAbortListener l w).
Proof.
  intros H. destruct l as [n|n]; simpl.
  - by apply inv_cancelForm.
  - apply inv_cancelForm. by eapply P_store_only; [..|apply H].
Qed.

Lemma inv_signal_abort s w : P w → P (signal_abort s w).
Proof.
  intros H. unfold signal_abort.
  destruct (signals w !! s) as [sig|]; [|done].
  destruct (aborted sig); [done|].
  apply foldl_invariant; [intros; by apply inv_runAbortListener|].
  by eapply P_store_only; [..|apply H].
Qed.

Lemma inv_dispatchPanelHiding w : P w → P (dispatchPanelHiding w).
Proof.
  intros H. unfold dispatchPanelHiding.
  apply (foldl_invariant P
           (fun l w' => if bool_decide (l ∈ windowListeners w')
                        then signal_abort (callback_controller l) w' else w')); [|done].
  intros l w' Hw'. case_bool_decide; [by apply inv_signal_abort|done].
Qed.

Lemma inv_try_registerForm c n d w : P w → P (snd (try_registerForm c n d w)).
Proof.
  intros H. unfold try_registerForm.
  pose proof (P_registerForm w n d H) as H'. unfold void in H'.
  destruct (registerForm n d w) as [[p|e] w']; simpl in *; [done|].
  by apply inv_signal_abort.
Qed.

Lemma inv_signal_addEventListener s l w : P w → P (void (signal_addEventListener s l) w).
Proof.
  intros H. unfold void, signal_addEventListener.
  destruct (signals w !! s); [|done]. by eapply P_store_only; [..|apply H].
Qed.

Lemma inv_afterCreateFrameSource n locals options target w :
  P w → P (snd (transform_afterCreateFrameSource n locals options target w)).
Proof.
  intros H. unfold transform_afterCreateFrameSource.
  set (w1 := match abortSignal options with Some s => _ | None => w end).
  assert (H1 : P w1).
  { subst w1. destruct (abortSignal options); [|done].
    by apply inv_signal_addEventListener. }
  case_decide; simpl.
  - by eapply P_store_only; [..|apply H1].
  - apply inv_try_registerForm. by eapply P_store_only; [..|apply H1].
Qed.

Lemma inv_afterEnsureSidebar n d options c w :
  P w → P (snd (transform_afterEnsureSidebar n d options c w)).
Proof.
  intros H. unfold transform_afterEnsureSidebar.
  apply inv_try_registerForm, inv_signal_addEventListener.
  unfold void, window_addEventListener. simpl.
  match goal with |- context [if ?b then _ else _] => destruct b end; simpl;
    by eapply P_store_only; [..|apply H].
Qed.

Lemma inv_resume at_ target w p w' : P w → resume at_ target w = Some (p, w') → P w'.
Proof.
  intros H. destruct at_ as [n locals options|n d options c|c r]; simpl.
  - intros [= Heq].
    replace w' with (snd (transform_afterCreateFrameSource n locals options target w))
      by (by rewrite Heq).
    by apply inv_afterCreateFrameSource.
  - intros [= Heq].
    replace w' with (snd (transform_afterEnsureSidebar n d options c w))
      by (by rewrite Heq).
    by apply inv_afterEnsureSidebar.
  - unfold transform_afterRegisterForm.
    destruct (promises w !! r) as [[| |]|]; try done;
      intros [= <- <-]; by apply inv_signal_abort.
Qed.

Lemma inv_react ev w : P w → P (react ev w).
Proof.
  intros H. destruct ev as [n d|n|n v|ns|n arg options|at_ target| |s| ]; simpl.
  - by apply P_registerForm.
  - by apply inv_getFormDefinition.
  - by apply P_resolveForm.
  - by apply inv_cancelForm.
  - unfold transform, expectContext. by case_decide.
  - destruct (resume at_ target w) as [[p w']|] eqn:Hr; [|done].
    by eapply inv_resume.
  - by eapply P_store_only; [..|apply H].
  - by apply inv_signal_abort.
  - by apply inv_dispatchPanelHiding.
Qed.

Lemma inv_run evs w : P w → P (run evs w).
Proof. intros H. unfold run. by apply foldl_invariant; [apply inv_react|]. Qed.
End StoreInvariant.

(** ** A settled promise stays as it is *)

Section SettledStays.
Variable p : Deferred.
Variable x : PromiseState.
Hypothesis x_settled : x ≠ Pending.

Lemma stays_store_only w w' :
  context w' = context w → forms w' = forms w → promises w' = promises w →
  stays p x w → stays p x w'.
Proof. unfold stays. by intros _ _ ->. Qed.

Lemma stays_registerForm w n d : stays p x w → stays p x (void (registerForm n d) w).
Proof.
  unfold stays. intros H. destruct (decide (context w = "contentScript")) as [Hc|Hc].
  - unfold void. destruct (registerForm_run w Hc n d) as (w' & -> & _ & _ & Hp & _).
    simpl. rewrite Hp. rewrite lookup_app_l; [done|]. by eapply lookup_lt_Some.
  - unfold void, registerForm, mbind, M_bind, bind. by rewrite expectContext_stop.
Qed.

Lemma stays_resolveForm w n v : stays p x w → stays p x (void (resolveForm n v) w).
Proof.
  unfold stays. intros H. destruct (decide (context w = "contentScript")) as [Hc|Hc].
  - unfold void. destruct (forms w !! n) as [f|] eqn:Hf.
    + destruct (resolveForm_run w Hc n v f Hf) as (w' & -> & _ & _ & Hp & _).
      simpl. rewrite Hp. by apply settle_settled.
    + by rewrite resolveForm_missing.
  - unfold void, resolveForm, mbind, M_bind, bind. by rewrite expectContext_stop.
Qed.

Lemma stays_cancelForm_body w n : stays p x w → stays p x (void (cancelForm_body n) w).
Proof.
  unfold stays. intros H. destruct (decide (context w = "contentScript")) as [Hc|Hc].
  - unfold void. destruct (cancelForm_body_run w Hc n) as (w' & -> & _ & _ & Hp & _).
    simpl. rewrite Hp. destruct (forms w !! n); [|done]. by apply settle_settled.
  - unfold cancelForm_body, unregisterForm. run_monad.
    destruct (forms w !! n) as [f|]; simpl;
      rewrite expectContext_stop by done; simpl; [|done].
    by apply settle_settled.
Qed.

Lemma stays_react ev w : stays p x w → stays p x (react ev w).
Proof.
  apply (inv_react (stays p x));
    [apply stays_store_only | apply stays_registerForm
    | apply stays_resolveForm | apply stays_cancelForm_body].
Qed.

Lemma stays_run evs w : stays p x w → stays p x (run evs w).
Proof.
  apply (inv_run (stays p x));
    [apply stays_store_only | apply stays_registerForm
    | apply stays_resolveForm | apply stays_cancelForm_body].
Qed.

Lemma stays_runAbortListener l w : stays p x w → stays p x (runAbortListener l w).
Proof.
  apply (inv_runAbortListener (stays p x));
    [apply stays_store_only | apply stays_cancelForm_body].
Qed.

Lemma stays_cancelForm_loop ns w :
  context w = "contentScript" → stays p x w → stays p x (void (cancelForm_loop ns) w).
Proof.
  apply (inv_cancelForm_loop (stays p x)). apply stays_cancelForm_body.
Qed.
End SettledStays.

Lemma is_settled_stays p evs w : is_settled p w = true → is_settled p (run evs w) = true.
Proof.
  unfold is_settled. destruct (promises w !! p) as [x|] eqn:Hp; [|done].
  intros Hx. assert (Hne : x ≠ Pending) by (by destruct x).
  by rewrite (stays_run p x Hne evs w Hp).
Qed.

Lemma settles_false_settled p w w' : is_settled p w = true → settles p w w' = false.
Proof.
  unfold settles, is_settled, is_pending.
  by destruct (promises w !! p) as [[| |]|].
Qed.

Lemma settlements_settled p evs w : is_settled p w = true → settlements p evs w = 0.
Proof.
  revert w. induction evs as [|ev rest IH]; intros w H; [done|]. simpl.
  rewrite settles_false_settled by done.
  apply (IH (react ev w)). by apply (is_settled_stays p [ev] w).
Qed.

Lemma settlements_at_most_one p evs w : (settlements p evs w ≤ 1)%nat.
Proof.
  revert w. induction evs as [|ev rest IH]; intros w; simpl; [lia|].
  destruct (settles p w (react ev w)) eqn:Hs.
  - rewrite settlements_settled; [lia|].
    unfold settles in Hs. by apply andb_prop in Hs as [_ ?].
  - apply IH.
Qed.

(** ** The loop of [cancelForm] *)

Lemma cancelForm_body_absent w n :
  context w = "contentScript" → forms w !! n = None →
  cancelForm_body n w = (Ok tt, w).
Proof.
  intros Hc Hn. destruct (cancelForm_body_run w Hc n) as (w' & -> & ? & Hf & Hp & ? & ? & ?).
  f_equal. rewrite Hn in Hp. rewrite delete_id in Hf by done.
  by apply World_eq.
Qed.

Lemma cancelForm_loop_returns ns w :
  context w = "contentScript" →
  cancelForm_loop ns w = (Ok tt, void (cancelForm_loop ns) w)
  ∧ context (void (cancelForm_loop ns) w) = "contentScript".
Proof.
  revert w. induction ns as [|n rest IH]; intros w Hc; [done|].
  unfold void. rewrite cancelForm_loop_cons by done.
  apply IH. unfold void.
  destruct (cancelForm_body_run w Hc n) as (w' & -> & Hc' & _). simpl. congruence.
Qed.

Lemma cancelForm_returns ns w :
  context w = "contentScript" →
  cancelForm ns w = (Ok tt, void (cancelForm ns) w).
Proof.
  intros Hc. unfold void. rewrite cancelForm_run by done.
  by apply cancelForm_loop_returns.
Qed.

Lemma cancelForm_absent w ns :
  context w = "contentScript" → (∀ n, n ∈ ns → forms w !! n = None) →
  cancelForm ns w = (Ok tt, w).
Proof.
  intros Hc. rewrite cancelForm_run by done.
  induction ns as [|n rest IH]; intros H; [done|].
  rewrite cancelForm_loop_cons by done. unfold void.
  rewrite cancelForm_body_absent by (try done; apply H; by left). simpl.
  apply IH. intros n' Hn'. apply H. by right.
Qed.

Lemma cancelForm_loop_forms ns w t :
  context w = "contentScript" →
  forms (void (cancelForm_loop ns) w) !! t
    = if decide (t ∈ ns) then None else forms w !! t.
Proof.
  revert w. induction ns as [|n rest IH]; intros w Hc.
  - case_decide as H; [by apply elem_of_nil in H | done].
  - unfold void. rewrite cancelForm_loop_cons by done.
    destruct (cancelForm_body_run w Hc n) as (w' & Hrun & Hc' & Hf & _).
    unfold void. rewrite Hrun. simpl. fold (void (cancelForm_loop rest) w').
    rewrite IH by congruence. rewrite Hf, lookup_delete.
    destruct (decide (t ∈ rest)) as [Hin|Hnin].
    + rewrite decide_True; [done|]. by right.
    + case_decide as Hnt.
      * subst. rewrite decide_True; [done|]. by left.
      * rewrite decide_False; [done|]. intros [?|?]%elem_of_cons; congruence.
Qed.

(** A promise that no entry holds is out of the loop's reach. *)
Lemma cancelForm_body_unheld w n p :
  context w = "contentScript" →
  (∀ t f, forms w !! t = Some f → registration f ≠ p) →
  promises (void (cancelForm_body n) w) !! p = promises w !! p
  ∧ (∀ t f, forms (void (cancelForm_body n) w) !! t = Some f → registration f ≠ p).
Proof.
  intros Hc Hp. unfold void.
  destruct (cancelForm_body_run w Hc n) as (w' & -> & _ & Hf & Hpr & _). simpl.
  split.
  - rewrite Hpr. destruct (forms w !! n) as [f|] eqn:Hn; [|done].
    apply settle_other. intros ->. by eapply Hp.
  - intros t f. rewrite Hf, lookup_delete. case_decide; [done|]. apply Hp.
Qed.

Lemma settles_same p w w' : promises w' !! p = promises w !! p → settles p w w' = false.
Proof.
  intros H. unfold settles, is_pending, is_settled. rewrite H.
  by destruct (promises w !! p) as [[| |]|].
Qed.

Lemma loop_settlements_unheld ns w p :
  context w = "contentScript" →
  (∀ t f, forms w !! t = Some f → registration f ≠ p) →
  loop_settlements p ns w = 0.
Proof.
  revert w. induction ns as [|n rest IH]; intros w Hc Hp; [done|]. simpl.
  destruct (cancelForm_body_unheld w n p Hc Hp) as [Hsame Hp'].
  rewrite settles_same by done. simpl. apply IH; [|done].
  unfold void. destruct (cancelForm_body_run w Hc n) as (w' & -> & Hc' & _).
  simpl. congruence.
Qed.

Lemma loop_settlements_held ns w t f :
  store_ok w → forms w !! t = Some f → t ∈ ns →
  loop_settlements (registration f) ns w = 1
  ∧ promises (void (cancelForm_loop ns) w) !! registration f
      = Some (Rejected (CancelError "User cancelled the action")).
Proof.
  revert w. induction ns as [|n rest IH]; intros w Hok Ht Hin.
  { by apply elem_of_nil in Hin. }
  pose proof (ok_context _ Hok) as Hc.
  pose proof (store_ok_cancelForm_body w n Hok) as Hok'.
  unfold void at 1. rewrite cancelForm_loop_cons by done. simpl.
  fold (void (cancelForm_loop rest) (void (cancelForm_body n) w)).
  destruct (cancelForm_body_run w Hc n) as (w' & Hrun & Hc' & Hf & Hp & _).
  assert (Hw' : void (cancelForm_body n) w = w') by (unfold void; by rewrite Hrun).
  rewrite Hw' in *. clear Hrun Hw'.
  destruct (decide (n = t)) as [->|Hne].
  - rewrite Ht in Hp.
    assert (Hrej : promises w' !! registration f
                   = Some (Rejected (CancelError "User cancelled the action"))).
    { rewrite Hp. apply settle_pending. by eapply ok_pending. }
    split.
    + assert (Hs : settles (registration f) w w' = true).
      { unfold settles, is_pending, is_settled.
        by rewrite (ok_pending _ Hok t f Ht), Hrej. }
      rewrite Hs, loop_settlements_unheld; [done|congruence|].
      intros t' f'. rewrite Hf, lookup_delete. case_decide as Hd; [done|].
      intros Hf' Heq. apply Hd. symmetry. by eapply (ok_unshared _ Hok).
    + apply stays_cancelForm_loop; [done|congruence|done].
  - assert (Hsame : promises w' !! registration f = promises w !! registration f).
    { rewrite Hp. destruct (forms w !! n) as [f'|] eqn:Hn; [|done].
      apply settle_other. intros Heq. apply Hne. by eapply (ok_unshared _ Hok). }
    rewrite settles_same by done. simpl.
    apply IH; [done| |].
    + rewrite Hf, lookup_delete_ne; done.
    + apply elem_of_cons in Hin as [?|?]; congruence.
Qed.

(** ** A pending promise that no entry holds stays pending *)

Section Unheld.
Variable p : Deferred.

Lemma unheld_store_only w w' :
  context w' = context w → forms w' = forms w → promises w' = promises w →
  unheld p w → unheld p w'.
Proof. unfold unheld. by intros -> -> ->. Qed.

Lemma unheld_registerForm w n d : unheld p w → unheld p (void (registerForm n d) w).
Proof.
  intros (Hc & Hp & Hf). unfold void.
  destruct (registerForm_run w Hc n d) as (w' & -> & Hc' & Hf' & Hp' & _).
  simpl. pose proof (lookup_lt_Some _ _ _ Hp) as Hlt. repeat split.
  - congruence.
  - rewrite Hp'. by rewrite lookup_app_l.
  - intros t f. rewrite Hf', lookup_insert. case_decide.
    + intros [= <-]. simpl. lia.
    + apply Hf.
Qed.

Lemma unheld_resolveForm w n v : unheld p w → unheld p (void (resolveForm n v) w).
Proof.
  intros (Hc & Hp & Hf). unfold void.
  destruct (forms w !! n) as [f|] eqn:Hn.
  - destruct (resolveForm_run w Hc n v f Hn) as (w' & -> & Hc' & Hf' & Hp' & _).
    simpl. repeat split.
    + congruence.
    + rewrite Hp', settle_other; [done|]. intros ->. by eapply Hf.
    + intros t f'. rewrite Hf', lookup_delete. case_decide; [done|]. apply Hf.
  - by rewrite resolveForm_missing.
Qed.

Lemma unheld_cancelForm_body w n : unheld p w → unheld p (void (cancelForm_body n) w).
Proof.
  intros (Hc & Hp & Hf).
  destruct (cancelForm_body_unheld w n p Hc Hf) as [Hsame Hf'].
  repeat split; [|congruence|done].
  unfold void. destruct (cancelForm_body_run w Hc n) as (w' & -> & Hc' & _).
  simpl. congruence.
Qed.

Lemma unheld_run evs w : unheld p w → unheld p (run evs w).
Proof.
  apply (inv_run (unheld p));
    [apply unheld_store_only | apply unheld_registerForm
    | apply unheld_resolveForm | apply unheld_cancelForm_body].
Qed.
End Unheld.

Lemma registerForm_Ok_context w n d p w1 :
  registerForm n d w = (Ok p, w1) → context w = "contentScript".
Proof.
  intros H. destruct (decide (context w = "contentScript")) as [Hc|Hc]; [done|].
  unfold registerForm, mbind, M_bind, bind in H.
  by rewrite expectContext_stop in H.
Qed.

(** What [registerForm] hands out: a new pending promise, held by the entry
    of the nonce. *)
Lemma registerForm_Ok w n d p w1 :
  registerForm n d w = (Ok p, w1) →
  context w1 = "contentScript"
  ∧ p = length (promises w)
  ∧ forms w1 !! n = Some {| definition := d; registration := p |}
  ∧ promises w1 !! p = Some Pending.
Proof.
  intros H. pose proof (registerForm_Ok_context _ _ _ _ _ H) as Hc.
  destruct (registerForm_run w Hc n d) as (w' & Hrun & Hc' & Hf & Hp & _).
  rewrite Hrun in H. injection H as <- <-. repeat split.
  - congruence.
  - by rewrite Hf, lookup_insert_eq.
  - rewrite Hp, lookup_app_r by lia. by rewrite Nat.sub_diag.
Qed.

(** After a settlement by [resolveForm] or [cancelForm] the nonce has no
    entry: the next [resolveForm] throws and the next [cancelForm] changes
    nothing. *)
Lemma after_settlement w formNonce :
  context w = "contentScript" → forms w !! formNonce = None →
  (∀ values, resolveForm formNonce values w
               = (Throw (Error ("Form not registered: " +:+ formNonce)), w))
  ∧ cancelForm [formNonce] w = (Ok tt, w).
Proof.
  intros Hc Hn. split.
  - intros values. by apply resolveForm_missing.
  - apply cancelForm_absent; [done|]. by intros n ->%list_elem_of_singleton.
Qed.

(** * The claims *)

(** C1. Single settlement. Once [registerForm] has returned the promise of
    a nonce: of all the events of any run, at most one settles that promise;
    [resolveForm] settles it with the value and removes the entry at once,
    and so does [cancelForm] with a [CancelError]; after either, a second
    [resolveForm] throws "Form not registered" and a second [cancelForm]
    changes nothing; and a settled promise keeps its state through every
    later run. *)
Theorem single_settlement (w : World) (nonce : UUID) (d : FormDefinition)
  (p : Deferred) (w1 : World) :
  registerForm nonce d w = (Ok p, w1) →
  (∀ evs, (settlements p evs w1 ≤ 1)%nat)
  ∧ (∀ values, ∃ w2,
       resolveForm nonce values w1 = (Ok tt, w2)
       ∧ forms w2 !! nonce = None
       ∧ promises w2 !! p = Some (Fulfilled values)
       ∧ (∀ values', resolveForm nonce values' w2
                       = (Throw (Error ("Form not registered: " +:+ nonce)), w2))
       ∧ cancelForm [nonce] w2 = (Ok tt, w2))
  ∧ (∃ w2,
       cancelForm [nonce] w1 = (Ok tt, w2)
       ∧ forms w2 !! nonce = None
       ∧ promises w2 !! p = Some (Rejected (CancelError "User cancelled the action"))
       ∧ (∀ values', resolveForm nonce values' w2
                       = (Throw (Error ("Form not registered: " +:+ nonce)), w2))
       ∧ cancelForm [nonce] w2 = (Ok tt, w2))
  ∧ (∀ w' x evs, promises w' !! p = Some x → x ≠ Pending →
       promises (run evs w') !! p = Some x).
Proof.
  intros Hreg. destruct (registerForm_Ok _ _ _ _ _ Hreg) as (Hc & _ & Hf & Hp).
  split; [|split; [|split]].
  - intros evs. apply settlements_at_most_one.
  - intros values.
    destruct (resolveForm_run w1 Hc nonce values _ Hf) as (w2 & Hrun & Hc2 & Hf2 & Hp2 & _).
    assert (Hnone : forms w2 !! nonce = None) by (by rewrite Hf2, lookup_delete_eq).
    exists w2. split; [done|]. split; [done|]. split.
    + rewrite Hp2. simpl. by apply settle_pending.
    + apply after_settlement; congruence.
  - destruct (cancelForm_body_run w1 Hc nonce) as (w2 & Hrun & Hc2 & Hf2 & Hp2 & _).
    assert (Hnone : forms w2 !! nonce = None) by (by rewrite Hf2, lookup_delete_eq).
    exists w2. split.
    { rewrite cancelForm_run, cancelForm_loop_cons by done.
      unfold void. by rewrite Hrun. }
    split; [done|]. split.
    + rewrite Hp2, Hf. simpl. by apply settle_pending.
    + apply after_settlement; congruence.
  - intros w' x evs Hx Hne. by apply (stays_run p x Hne).
Qed.

Lemma single_settlement_witness :
  registerForm nonceA formA initialWorld = (Ok 0, worldA)
  ∧ (∀ evs, (settlements 0 evs worldA ≤ 1)%nat)
  ∧ (∃ w2, resolveForm nonceA valuesA worldA = (Ok tt, w2)
       ∧ forms w2 !! nonceA = None
       ∧ promises w2 !! 0 = Some (Fulfilled valuesA)
       ∧ cancelForm [nonceA] w2 = (Ok tt, w2)).
Proof.
  split; [reflexivity|].
  destruct (single_settlement initialWorld nonceA formA 0 worldA eq_refl)
    as (H1 & H2 & _).
  split; [exact H1|].
  destruct (H2 valuesA) as (w2 & Hr & Hf & Hp & _ & Hc).
  exists w2. auto.
Defined.

(** C2. [resolveForm] throws exactly when the nonce has no entry, and the
    error is "Form not registered"; otherwise it returns, the promise of the
    entry is fulfilled with the very value passed, whatever it is, and the
    entry is deleted. The promise is the one [registerForm] gave its caller. *)
Theorem resolveForm_delivers (w : World) (formNonce : UUID) (values : JsValue) :
  store_ok w →
  ((∃ e, fst (resolveForm formNonce values w) = Throw e) ↔ forms w !! formNonce = None)
  ∧ (forms w !! formNonce = None →
       resolveForm formNonce values w
         = (Throw (Error ("Form not registered: " +:+ formNonce)), w))
  ∧ (∀ f, forms w !! formNonce = Some f →
       ∃ w', resolveForm formNonce values w = (Ok tt, w')
         ∧ promises w' !! registration f = Some (Fulfilled values)
         ∧ forms w' = delete formNonce (forms w))
  ∧ (∀ d, ∃ p w1 w2,
       registerForm formNonce d w = (Ok p, w1)
       ∧ resolveForm formNonce values w1 = (Ok tt, w2)
       ∧ promises w2 !! p = Some (Fulfilled values)
       ∧ forms w2 !! formNonce = None).
Proof.
  intros Hok. pose proof (ok_context _ Hok) as Hc.
  assert (Hsome : ∀ f, forms w !! formNonce = Some f →
       ∃ w', resolveForm formNonce values w = (Ok tt, w')
         ∧ promises w' !! registration f = Some (Fulfilled values)
         ∧ forms w' = delete formNonce (forms w)).
  { intros f Hf.
    destruct (resolveForm_run w Hc formNonce values f Hf) as (w' & Hrun & _ & Hf' & Hp & _).
    exists w'. repeat split; [done| |done].
    rewrite Hp. apply settle_pending. by eapply ok_pending. }
  split; [|split; [|split]].
  - split.
    + intros [e He]. destruct (forms w !! formNonce) as [f|] eqn:Hf; [|done].
      destruct (Hsome f eq_refl) as (w' & Hrun & _). by rewrite Hrun in He.
    + intros Hf. rewrite resolveForm_missing by done. eauto.
  - by apply resolveForm_missing.
  - done.
  - intros d.
    destruct (registerForm_run w Hc formNonce d) as (w1 & Hreg & _).
    destruct (registerForm_Ok _ _ _ _ _ Hreg) as (Hc1 & _ & Hf1 & Hp1).
    destruct (resolveForm_run w1 Hc1 formNonce values _ Hf1) as (w2 & Hrun & _ & Hf2 & Hp2 & _).
    exists (length (promises w)), w1, w2. repeat split; [done|done| |].
    + rewrite Hp2. simpl. by apply settle_pending.
    + by rewrite Hf2, lookup_delete_eq.
Qed.

Lemma resolveForm_delivers_witness :
  store_ok worldA
  ∧ (∃ w', resolveForm nonceA valuesA worldA = (Ok tt, w')
       ∧ promises w' !! 0 = Some (Fulfilled valuesA)
       ∧ forms w' = delete nonceA (forms worldA))
  ∧ resolveForm nonceB JNull worldA
      = (Throw (Error ("Form not registered: " +:+ nonceB)), worldA).
Proof.
  assert (Hok : store_ok worldA) by apply store_ok_registerForm, store_ok_initial.
  split; [exact Hok|].
  destruct (resolveForm_delivers worldA nonceA valuesA Hok) as (_ & _ & H & _).
  destruct (resolveForm_delivers worldA nonceB JNull Hok) as (_ & H' & _).
  split; [exact (H {| definition := formA; registration := 0 |} eq_refl)|].
  exact (H' eq_refl).
Defined.

Lemma cancelForm_loop_others ns w p :
  context w = "contentScript" →
  (∀ t f, t ∈ ns → forms w !! t = Some f → registration f ≠ p) →
  promises (void (cancelForm_loop ns) w) !! p = promises w !! p.
Proof.
  revert w. induction ns as [|n rest IH]; intros w Hc Hp; [done|].
  unfold void. rewrite cancelForm_loop_cons by done.
  destruct (cancelForm_body_run w Hc n) as (w' & Hrun & Hc' & Hf & Hpr & _).
  unfold void. rewrite Hrun. simpl. fold (void (cancelForm_loop rest) w').
  rewrite IH.
  - rewrite Hpr. destruct (forms w !! n) as [f|] eqn:Hn; [|done].
    apply settle_other. intros ->. eapply Hp; [by left|done|done].
  - congruence.
  - intros t f Ht. rewrite Hf, lookup_delete. case_decide; [done|].
    apply Hp. by right.
Qed.

(** C3. [cancelForm] takes any list of nonces and never throws. Every
    listed nonce ends without an entry; the promise of a listed nonce that had
    an entry is rejected with the [CancelError] by exactly one turn of the
    loop, however often the nonce is listed; the entries of other nonces and
    the promises of other entries are untouched; and when no listed nonce has
    an entry nothing changes at all. *)
Theorem cancelForm_never_errors (w : World) (formNonces : list UUID) :
  store_ok w →
  ∃ w', cancelForm formNonces w = (Ok tt, w')
    ∧ (∀ t, t ∈ formNonces → forms w' !! t = None)
    ∧ (∀ t, t ∉ formNonces → forms w' !! t = forms w !! t)
    ∧ (∀ t f, t ∈ formNonces → forms w !! t = Some f →
         loop_settlements (registration f) formNonces w = 1
         ∧ promises w' !! registration f
             = Some (Rejected (CancelError "User cancelled the action")))
    ∧ (∀ p, (∀ t f, t ∈ formNonces → forms w !! t = Some f → registration f ≠ p) →
         promises w' !! p = promises w !! p)
    ∧ ((∀ t, t ∈ formNonces → forms w !! t = None) → w' = w).
Proof.
  intros Hok. pose proof (ok_context _ Hok) as Hc.
  exists (void (cancelForm formNonces) w).
  split; [by apply cancelForm_returns|].
  assert (Hv : void (cancelForm formNonces) w = void (cancelForm_loop formNonces) w).
  { unfold void. by rewrite cancelForm_run. }
  rewrite Hv. repeat split.
  - intros t Ht. rewrite cancelForm_loop_forms by done. by rewrite decide_True.
  - intros t Ht. rewrite cancelForm_loop_forms by done. by rewrite decide_False.
  - by eapply loop_settlements_held.
  - by eapply loop_settlements_held.
  - intros p Hp. by apply cancelForm_loop_others.
  - intros Hnone. rewrite <- Hv. unfold void. by rewrite cancelForm_absent.
Qed.

(** [cancelForm(nonceA, nonceB, nonceA)] with [nonceA] pending and [nonceB]
    unknown. *)
Lemma cancelForm_never_errors_witness :
  store_ok worldA
  ∧ ∃ w', cancelForm [nonceA; nonceB; nonceA] worldA = (Ok tt, w')
      ∧ loop_settlements 0 [nonceA; nonceB; nonceA] worldA = 1
      ∧ promises w' !! 0 = Some (Rejected (CancelError "User cancelled the action"))
      ∧ forms w' !! nonceA = None
      ∧ forms w' !! nonceB = None.
Proof.
  assert (Hok : store_ok worldA) by apply store_ok_registerForm, store_ok_initial.
  split; [exact Hok|].
  destruct (cancelForm_never_errors worldA [nonceA; nonceB; nonceA] Hok)
    as (w' & Hrun & Hin & _ & Hheld & _).
  exists w'.
  destruct (Hheld nonceA {| definition := formA; registration := 0 |}) as [H1 H2];
    [by left | reflexivity |].
  split; [exact Hrun|]. split; [exact H1|]. split; [exact H2|]. split.
  - apply Hin. by left.
  - apply Hin. right. by left.
Defined.

(** C5. [getFormDefinition] on a nonce without entry throws, in whatever
    context it runs, and leaves the world as it is; in the content script the
    error is the [TypeError] of the property read on [undefined]. It never
    returns a definition for such a nonce. For a nonce with an entry it
    returns the definition of that entry, the one given to [registerForm]. *)
Theorem getFormDefinition_fails_fast (w : World) (nonce : UUID) :
  (forms w !! nonce = None → ∃ e, getFormDefinition nonce w = (Throw e, w))
  ∧ (context w = "contentScript" → forms w !! nonce = None →
       getFormDefinition nonce w
         = (Throw (TypeError "Cannot read properties of undefined (reading 'definition')"), w))
  ∧ (context w = "contentScript" → ∀ f, forms w !! nonce = Some f →
       getFormDefinition nonce w = (Ok (definition f), w))
  ∧ (∀ d p w1, registerForm nonce d w = (Ok p, w1) →
       getFormDefinition nonce w1 = (Ok d, w1)).
Proof.
  split; [|split; [|split]].
  - intros Hn. destruct (decide (context w = "contentScript")) as [Hc|Hc].
    + rewrite getFormDefinition_run, Hn by done. eauto.
    + unfold getFormDefinition, mbind, M_bind, bind.
      rewrite expectContext_stop by done. eauto.
  - intros Hc Hn. by rewrite getFormDefinition_run, Hn.
  - intros Hc f Hf. by rewrite getFormDefinition_run, Hf.
  - intros d p w1 Hreg.
    destruct (registerForm_Ok _ _ _ _ _ Hreg) as (Hc & _ & Hf & _).
    by rewrite getFormDefinition_run, Hf.
Qed.

Lemma getFormDefinition_fails_fast_witness :
  forms worldA !! nonceB = None
  ∧ getFormDefinition nonceB worldA
      = (Throw (TypeError "Cannot read properties of undefined (reading 'definition')"), worldA)
  ∧ getFormDefinition nonceA worldA = (Ok formA, worldA).
Proof.
  destruct (getFormDefinition_fails_fast worldA nonceB) as (_ & H1 & _).
  destruct (getFormDefinition_fails_fast initialWorld nonceA) as (_ & _ & _ & H2).
  split; [reflexivity|]. split.
  - apply H1; reflexivity.
  - apply (H2 formA 0 worldA). reflexivity.
Defined.

(** C6 fails on the code: with [nonceA] registered and pending, a second
    [registerForm] under [nonceA] returns a promise. *)
Lemma registerForm_duplicate_not_rejected : ¬ rejects_duplicate worldA nonceA formB.
Proof.
  intros H. destruct H as [e He].
  - by exists {| definition := formA; registration := 0 |}.
  - discriminate He.
Qed.

(** C6, amended. [registerForm] under a nonce that has an entry does not
    fail: it warns on the console, replaces the entry by one with the new
    definition and a new pending promise, and returns that promise. *)
Theorem registerForm_overwrites (w : World) (nonce : UUID) (d : FormDefinition) :
  context w = "contentScript" → is_Some (forms w !! nonce) →
  ∃ w', registerForm nonce d w = (Ok (length (promises w)), w')
    ∧ forms w' = <[nonce := {| definition := d; registration := length (promises w) |}]> (forms w)
    ∧ promises w' = (promises w ++ [Pending])%list
    ∧ trace w' = (trace w ++ [ConsoleWarn "A form was already registered with nonce %s" nonce])%list.
Proof.
  intros Hc Hn.
  destruct (registerForm_run w Hc nonce d) as (w' & Hrun & _ & Hf & Hp & _ & _ & Ht).
  exists w'. rewrite bool_decide_true in Ht by done. auto.
Qed.

Lemma registerForm_overwrites_witness :
  context worldA = "contentScript" ∧ is_Some (forms worldA !! nonceA)
  ∧ ∃ w', registerForm nonceA formB worldA = (Ok 1, w')
      ∧ forms w' !! nonceA = Some {| definition := formB; registration := 1 |}
      ∧ promises w' = [Pending; Pending]
      ∧ trace w' = [ConsoleWarn "A form was already registered with nonce %s" nonceA].
Proof.
  assert (Hn : is_Some (forms worldA !! nonceA))
    by (by exists {| definition := formA; registration := 0 |}).
  split; [reflexivity|]. split; [exact Hn|].
  destruct (registerForm_overwrites worldA nonceA formB eq_refl Hn)
    as (w' & Hrun & Hf & Hp & Ht).
  exists w'. split; [exact Hrun|]. split; [|split; [exact Hp|exact Ht]].
  rewrite Hf. apply lookup_insert_eq.
Defined.

(** C10. When [registerForm] is called under a nonce whose entry is still
    pending, the entry is replaced by one with a new promise, and the promise
    of the first call stays pending through every later run: no
    [resolveForm], no [cancelForm], no abort and no other event can settle
    it. *)
Theorem overwritten_promise_never_settles (w : World) (nonce : UUID)
  (d : FormDefinition) (f : RegisteredForm) :
  store_ok w → forms w !! nonce = Some f →
  ∃ w1, registerForm nonce d w = (Ok (length (promises w)), w1)
    ∧ length (promises w) ≠ registration f
    ∧ forms w1 !! nonce = Some {| definition := d; registration := length (promises w) |}
    ∧ promises w1 !! registration f = Some Pending
    ∧ ∀ evs, promises (run evs w1) !! registration f = Some Pending.
Proof.
  intros Hok Hf. pose proof (ok_context _ Hok) as Hc.
  pose proof (ok_pending _ Hok _ _ Hf) as Hpend.
  pose proof (lookup_lt_Some _ _ _ Hpend) as Hlt.
  destruct (registerForm_run w Hc nonce d) as (w1 & Hrun & Hc1 & Hf1 & Hp1 & _).
  assert (Hun : unheld (registration f) w1).
  { repeat split.
    - congruence.
    - rewrite Hp1. by rewrite lookup_app_l.
    - intros t f'. rewrite Hf1, lookup_insert. case_decide as Ht.
      + intros [= <-]. simpl. lia.
      + intros Hf' Heq. apply Ht. symmetry. by eapply (ok_unshared _ Hok). }
  exists w1. split; [done|]. split; [lia|]. split.
  { by rewrite Hf1, lookup_insert_eq. }
  split; [apply Hun|].
  intros evs. by apply (unheld_run (registration f) evs w1).
Qed.

Lemma overwritten_promise_never_settles_witness :
  store_ok worldA
  ∧ forms worldA !! nonceA = Some {| definition := formA; registration := 0 |}
  ∧ ∃ w1, registerForm nonceA formB worldA = (Ok 1, w1)
      ∧ ∀ evs, promises (run evs w1) !! 0 = Some Pending.
Proof.
  assert (Hok : store_ok worldA) by apply store_ok_registerForm, store_ok_initial.
  split; [exact Hok|]. split; [reflexivity|].
  destruct (overwritten_promise_never_settles worldA nonceA formB
              {| definition := formA; registration := 0 |} Hok eq_refl)
    as (w1 & Hrun & _ & _ & _ & Hnever).
  exists w1. split; [exact Hrun|exact Hnever].
Defined.

(** ** The stretches of [transform] *)

Lemma try_registerForm_run c nonce d w :
  context w = "contentScript" →
  ∃ w', try_registerForm c nonce d w
          = (Suspend (AwaitRegisterForm c (length (promises w))), w')
    ∧ context w' = context w
    ∧ forms w' = <[nonce := {| definition := d; registration := length (promises w) |}]> (forms w)
    ∧ promises w' = (promises w ++ [Pending])%list
    ∧ signals w' = signals w
    ∧ windowListeners w' = windowListeners w
    ∧ trace w' =
        (trace w ++
           if bool_decide (is_Some (forms w !! nonce))
           then [ConsoleWarn "A form was already registered with nonce %s" nonce]
           else [])%list.
Proof.
  intros Hc. unfold try_registerForm.
  destruct (registerForm_run w Hc nonce d) as (w' & -> & H).
  by exists w'.
Qed.

(** After [addEventListener] the signals are as many as before, and so the
    next controller gets the same index. *)
Lemma signal_addEventListener_run s l w :
  context (void (signal_addEventListener s l) w) = context w
  ∧ forms (void (signal_addEventListener s l) w) = forms w
  ∧ promises (void (signal_addEventListener s l) w) = promises w
  ∧ length (signals (void (signal_addEventListener s l) w)) = length (signals w)
  ∧ windowListeners (void (signal_addEventListener s l) w) = windowListeners w
  ∧ trace (void (signal_addEventListener s l) w) = trace w.
Proof.
  unfold void, signal_addEventListener.
  destruct (signals w !! s); simpl; by rewrite ?length_insert.
Qed.

Lemma afterCreateFrameSource_modal frameNonce locals options target w :
  context w = "contentScript" → l_location locals ≠ "sidebar" →
  ∃ w1,
    transform_afterCreateFrameSource frameNonce locals options target w
      = (Suspend (AwaitRegisterForm (length (signals w)) (length (promises w))), w1)
    ∧ context w1 = "contentScript"
    ∧ forms w1 !! frameNonce
        = Some {| definition := formDefinitionOf locals;
                  registration := length (promises w) |}
    ∧ promises w1 !! length (promises w) = Some Pending
    ∧ signals w1 !! length (signals w)
        = Some {| aborted := false; abortListeners := [] |}
    ∧ ShowModal (createFrameSource frameNonce (l_location locals) target)
        (length (signals w)) ∈ trace w1.
Proof.
  intros Hc Hloc. unfold transform_afterCreateFrameSource.
  rewrite decide_False by done.
  set (w0 := match abortSignal options with Some s => _ | None => w end).
  assert (H0 : context w0 = context w ∧ promises w0 = promises w
               ∧ length (signals w0) = length (signals w)).
  { subst w0. destruct (abortSignal options) as [s|]; [|done].
    by destruct (signal_addEventListener_run s (CallerAbortListener frameNonce) w)
      as (? & ? & ? & ? & _). }
  destruct H0 as (Hc0 & Hp0 & Hl0). rewrite Hl0.
  match goal with |- context [try_registerForm ?c ?n ?d ?w'] =>
    destruct (try_registerForm_run c n d w') as (w1 & -> & Hc1 & Hf1 & Hp1 & Hs1 & _ & Ht1)
  end.
  { simpl. congruence. }
  simpl in *. rewrite Hp0 in *.
  exists w1. split; [done|]. repeat split.
  - congruence.
  - by rewrite Hf1, lookup_insert_eq.
  - rewrite Hp1, lookup_app_r by lia. by rewrite Nat.sub_diag.
  - rewrite Hs1, lookup_app_r by lia. by rewrite Hl0, Nat.sub_diag.
  - rewrite Ht1. apply elem_of_app. left. apply elem_of_app. right. by left.
Qed.

Lemma afterCreateFrameSource_sidebar frameNonce locals options target w :
  l_location locals = "sidebar" →
  ∃ w1,
    transform_afterCreateFrameSource frameNonce locals options target w
      = (Suspend (AwaitEnsureSidebar frameNonce (formDefinitionOf locals) options
                    (length (signals w))), w1)
    ∧ context w1 = context w
    ∧ forms w1 = forms w
    ∧ promises w1 = promises w
    ∧ signals w1 !! length (signals w)
        = Some {| aborted := false; abortListeners := [] |}.
Proof.
  intros Hloc. unfold transform_afterCreateFrameSource.
  rewrite decide_True by done.
  set (w0 := match abortSignal options with Some s => _ | None => w end).
  assert (H0 : context w0 = context w ∧ forms w0 = forms w ∧ promises w0 = promises w
               ∧ length (signals w0) = length (signals w)).
  { subst w0. destruct (abortSignal options) as [s|]; [|done].
    by destruct (signal_addEventListener_run s (CallerAbortListener frameNonce) w)
      as (? & ? & ? & ? & _). }
  destruct H0 as (Hc0 & Hf0 & Hp0 & Hl0). rewrite Hl0.
  eexists. split; [done|]. simpl. repeat split; try done.
  rewrite lookup_app_r by lia. by rewrite Hl0, Nat.sub_diag.
Qed.

Lemma afterEnsureSidebar_run frameNonce d options c w :
  context w = "contentScript" →
  ∃ p w1,
    transform_afterEnsureSidebar frameNonce d options c w
      = (Suspend (AwaitRegisterForm c p), w1)
    ∧ context w1 = "contentScript"
    ∧ forms w1 !! frameNonce = Some {| definition := d; registration := p |}
    ∧ promises w1 !! p = Some Pending
    ∧ ShowSidebarForm (logger_extensionId options) frameNonce d ∈ trace w1.
Proof.
  intros Hc. unfold transform_afterEnsureSidebar.
  match goal with |- context [try_registerForm ?c ?n ?d ?w'] =>
    assert (Hw' : context w' = context w ∧ promises w' = promises w
                  ∧ trace w' = (trace w ++ [ShowSidebarForm (logger_extensionId options) frameNonce d])%list);
    [|destruct Hw' as (Hc' & Hp' & Ht');
      destruct (try_registerForm_run c n d w') as (w1 & -> & Hc1 & Hf1 & Hp1 & _ & _ & Ht1);
      [congruence|] ]
  end.
  { match goal with |- context [signal_addEventListener ?s ?l] =>
      destruct (signal_addEventListener_run s l
        (void (window_addEventListener {| callback_controller := c; option_signal := c |})
           (emit (ShowSidebarForm (logger_extensionId options) frameNonce d) w)))
        as (-> & _ & -> & _ & _ & ->)
    end.
    unfold void, window_addEventListener.
    by match goal with |- context [if ?b then _ else _] => destruct b end. }
  eexists _, w1. split; [done|]. repeat split.
  - congruence.
  - by rewrite Hf1, lookup_insert_eq.
  - rewrite Hp1, lookup_app_r by lia. by rewrite Nat.sub_diag.
  - rewrite Ht1, Ht'. apply elem_of_app. left. apply elem_of_app. right. by left.
Qed.

(** C9. The destructuring pattern of [transform] gives an omitted
    [cancelable] the value [true], an omitted [submitCaption] the value
    "Submit" and an omitted [location] the value "modal"; the form definition
    that is registered carries these values, on the modal path and on the
    sidebar path; with [location] omitted the form is shown by [showModal]
    with mode "modal". [inputSchema] requires [schema] and nothing else,
    admits for [location] the values "modal" and "sidebar" only, and declares
    the same three defaults. *)
Theorem transform_defaults (frameNonce : UUID) (arg : BlockArg) (options : BlockOptions)
  (target : string) (w : World) :
  context w = "contentScript" →
  transform frameNonce arg options w
    = (Suspend (AwaitCreateFrameSource frameNonce (destructure arg) options), w)
  ∧ (arg_cancelable arg = None → cancelable (formDefinitionOf (destructure arg)) = true)
  ∧ (arg_submitCaption arg = None →
       submitCaption (formDefinitionOf (destructure arg)) = "Submit")
  ∧ (arg_location arg = None → l_location (destructure arg) = "modal")
  ∧ (l_location (destructure arg) ≠ "sidebar" → ∃ p w1,
       resume (AwaitCreateFrameSource frameNonce (destructure arg) options) target w
         = Some (Suspend (AwaitRegisterForm (length (signals w)) p), w1)
       ∧ forms w1 !! frameNonce
           = Some {| definition := formDefinitionOf (destructure arg); registration := p |}
       ∧ ShowModal {| param_nonce := frameNonce; param_opener := target;
                      param_mode := l_location (destructure arg) |}
           (length (signals w)) ∈ trace w1)
  ∧ (l_location (destructure arg) = "sidebar" → ∃ w1,
       resume (AwaitCreateFrameSource frameNonce (destructure arg) options) target w
         = Some (Suspend (AwaitEnsureSidebar frameNonce (formDefinitionOf (destructure arg))
                            options (length (signals w))), w1)
       ∧ ∀ w2, context w2 = "contentScript" → ∃ p w3,
           resume (AwaitEnsureSidebar frameNonce (formDefinitionOf (destructure arg))
                     options (length (signals w))) target w2
             = Some (Suspend (AwaitRegisterForm (length (signals w)) p), w3)
           ∧ forms w3 !! frameNonce
               = Some {| definition := formDefinitionOf (destructure arg); registration := p |})
  ∧ (∀ name, required name = true ↔ name = "schema")
  ∧ (∀ value, enum_admits "location" value = true ↔ value = "modal" ∨ value = "sidebar")
  ∧ (p_default <$> property "cancelable") = Some (Some (JBool true))
  ∧ (p_default <$> property "submitCaption") = Some (Some (JStr "Submit"))
  ∧ (p_default <$> property "location") = Some (Some (JStr "modal")).
Proof.
  intros Hc. split; [|split; [|split; [|split; [|split; [|split]]]]].
  - unfold transform. by rewrite expectContext_pass.
  - intros H. simpl. by rewrite H.
  - intros H. simpl. by rewrite H.
  - intros H. simpl. by rewrite H.
  - intros Hloc.
    destruct (afterCreateFrameSource_modal frameNonce (destructure arg) options target w Hc Hloc)
      as (w1 & Hrun & _ & Hf & _ & _ & Hshow).
    exists (length (promises w)), w1. simpl. by rewrite Hrun.
  - intros Hloc.
    destruct (afterCreateFrameSource_sidebar frameNonce (destructure arg) options target w Hloc)
      as (w1 & Hrun & _).
    exists w1. simpl. rewrite Hrun. split; [done|].
    intros w2 Hc2.
    destruct (afterEnsureSidebar_run frameNonce (formDefinitionOf (destructure arg))
                options (length (signals w)) w2 Hc2) as (p & w3 & Hrun3 & _ & Hf3 & _).
    exists p, w3. by rewrite Hrun3.
  - split; [|split; [|done]].
    + intros name. unfold required. simpl. rewrite bool_decide_eq_true.
      by rewrite list_elem_of_singleton.
    + intros value. unfold enum_admits. simpl. rewrite bool_decide_eq_true.
      rewrite elem_of_cons, list_elem_of_singleton. done.
Qed.

Lemma transform_defaults_witness :
  context initialWorld = "contentScript"
  ∧ cancelable (formDefinitionOf (destructure argA)) = true
  ∧ submitCaption (formDefinitionOf (destructure argA)) = "Submit"
  ∧ ∃ p w1,
      resume (AwaitCreateFrameSource nonceA (destructure argA) optionsA) targetA initialWorld
        = Some (Suspend (AwaitRegisterForm 0 p), w1)
      ∧ forms w1 !! nonceA = Some {| definition := formA; registration := p |}
      ∧ ShowModal {| param_nonce := nonceA; param_opener := targetA; param_mode := "modal" |} 0
          ∈ trace w1.
Proof.
  destruct (transform_defaults nonceA argA optionsA targetA initialWorld eq_refl)
    as (_ & H1 & H2 & _ & H4 & _).
  split; [reflexivity|]. split; [exact (H1 eq_refl)|]. split; [exact (H2 eq_refl)|].
  apply H4. discriminate.
Defined.

(** ** An aborted signal stays aborted *)

Section AbortedStays.
Variable c : SignalRef.

Lemma aborted_still f w : still f → aborted_at c w → aborted_at c (f w).
Proof. intros Hf H. destruct (Hf w) as (Hs & _). unfold aborted_at, signal_aborted. by rewrite Hs. Qed.

Lemma aborted_signal_abort s w : aborted_at c w → aborted_at c (signal_abort s w).
Proof. unfold aborted_at. intros H. rewrite signal_aborted_abort, H. by case_bool_decide. Qed.

Lemma aborted_dispatchPanelHiding w : aborted_at c w → aborted_at c (dispatchPanelHiding w).
Proof.
  intros H. unfold dispatchPanelHiding.
  apply (foldl_invariant (aborted_at c)
           (fun l w' => if bool_decide (l ∈ windowListeners w')
                        then signal_abort (callback_controller l) w' else w')); [|done].
  intros l w' Hw'. case_bool_decide; [by apply aborted_signal_abort|done].
Qed.

Lemma aborted_newAbortController w : aborted_at c w → aborted_at c (void newAbortController w).
Proof.
  unfold aborted_at, signal_aborted. simpl. intros H.
  destruct (signals w !! c) as [sig|] eqn:Hs; [|done].
  by rewrite lookup_app_l, Hs by (by eapply lookup_lt_Some).
Qed.

Lemma aborted_signal_addEventListener s l w :
  aborted_at c w → aborted_at c (void (signal_addEventListener s l) w).
Proof. unfold aborted_at. by rewrite signal_aborted_addEventListener. Qed.

Lemma aborted_window_addEventListener l w :
  aborted_at c w → aborted_at c (void (window_addEventListener l) w).
Proof.
  unfold aborted_at, void, window_addEventListener.
  by destruct (signal_aborted (option_signal l) w).
Qed.

Lemma aborted_try_registerForm c' n d w : aborted_at c w → aborted_at c (snd (try_registerForm c' n d w)).
Proof.
  intros H. unfold try_registerForm.
  pose proof (aborted_still (void (registerForm n d)) w
                (still_void _ (quiet_registerForm n d)) H) as H'.
  unfold void in H'. destruct (registerForm n d w) as [[p|e] w']; simpl in *; [done|].
  by apply aborted_signal_abort.
Qed.

Lemma aborted_react ev w : aborted_at c w → aborted_at c (react ev w).
Proof.
  intros H. destruct ev as [n d|n|n v|ns|n arg options|at_ target| |s| ]; simpl.
  - apply aborted_still; [apply still_void; auto with quiet | done].
  - apply aborted_still; [apply still_void; auto with quiet | done].
  - apply aborted_still; [apply still_void; auto with quiet | done].
  - apply aborted_still; [apply still_void; auto with quiet | done].
  - unfold transform, expectContext. by case_decide.
  - destruct at_ as [n locals options|n d options c'|c' p]; simpl.
    + unfold transform_afterCreateFrameSource.
      set (w1 := match abortSignal options with Some s => _ | None => w end).
      assert (H1 : aborted_at c w1).
      { subst w1. destruct (abortSignal options); [|done].
        by apply aborted_signal_addEventListener. }
      case_decide; simpl.
      * by apply aborted_newAbortController.
      * apply aborted_try_registerForm. by apply aborted_newAbortController.
    + unfold transform_afterEnsureSidebar.
      apply aborted_try_registerForm, aborted_signal_addEventListener,
        aborted_window_addEventListener. done.
    + unfold transform_afterRegisterForm.
      destruct (promises w !! p) as [[| |]|]; try done; by apply aborted_signal_abort.
  - by apply aborted_newAbortController.
  - by apply aborted_signal_abort.
  - by apply aborted_dispatchPanelHiding.
Qed.

Lemma aborted_run evs w :
  signal_aborted c w = true → signal_aborted c (run evs w) = true.
Proof. intros H. unfold run. by apply (foldl_invariant (aborted_at c)); [apply aborted_react|]. Qed.
End AbortedStays.

(** ** Leaving the [await] of line 166 *)

Lemma afterRegisterForm_exit c p w out w' :
  transform_afterRegisterForm c p w = Some (out, w') →
  w' = signal_abort c w
  ∧ ((∃ v, out = Return v ∧ promises w !! p = Some (Fulfilled v))
     ∨ (∃ e, out = Raise e ∧ promises w !! p = Some (Rejected e))).
Proof.
  unfold transform_afterRegisterForm.
  destruct (promises w !! p) as [[|v|e]|]; try done; intros [= <- <-]; eauto.
Qed.

Lemma afterRegisterForm_settled c p w :
  is_Some (transform_afterRegisterForm c p w) ↔ is_settled p w = true.
Proof.
  unfold transform_afterRegisterForm, is_settled.
  destruct (promises w !! p) as [[|v|e]|]; split; try done; by intros [? ?].
Qed.

Lemma signal_abort_aborts c w :
  is_Some (signals w !! c) → signal_aborted c (signal_abort c w) = true.
Proof. intros H. rewrite signal_aborted_abort. by rewrite bool_decide_true. Qed.

(** The controller that a run of [transform] creates is new: no ["abort"]
    event has been dispatched at it when the surface is requested. *)
Lemma controller_is_new frameNonce locals options target w :
  world_ok w →
  ∃ at_ w1,
    transform_afterCreateFrameSource frameNonce locals options target w = (Suspend at_, w1)
    ∧ (at_ = AwaitRegisterForm (length (signals w)) (length (promises w))
       ∨ at_ = AwaitEnsureSidebar frameNonce (formDefinitionOf locals) options
                 (length (signals w)))
    ∧ is_Some (signals w1 !! length (signals w))
    ∧ abort_events (length (signals w)) w1 = 0.
Proof.
  intros Hok. pose proof (ok_context _ (w_store _ Hok)) as Hc.
  pose proof (world_ok_afterCreateFrameSource frameNonce locals options target w Hok) as Hok1.
  destruct (decide (l_location locals = "sidebar")) as [Hloc|Hloc].
  - destruct (afterCreateFrameSource_sidebar frameNonce locals options target w Hloc)
      as (w1 & Hrun & _ & _ & _ & Hs).
    rewrite Hrun in *. simpl in Hok1. eexists _, w1. split; [done|].
    split; [by right|]. split; [by eexists|].
    rewrite (w_trace _ Hok1). unfold signal_aborted. by rewrite Hs.
  - destruct (afterCreateFrameSource_modal frameNonce locals options target w Hc Hloc)
      as (w1 & Hrun & _ & _ & _ & Hs & _).
    rewrite Hrun in *. simpl in Hok1. eexists _, w1. split; [done|].
    split; [by left|]. split; [by eexists|].
    rewrite (w_trace _ Hok1). unfold signal_aborted. by rewrite Hs.
Qed.

(** What the [finally] of lines 167-169 gives, once [transform] leaves the
    [await] of line 166. In a sound world [transform] leaves that [await]
    exactly when the promise is settled; it returns the value or throws the
    reason, and the controller is then aborted: its ["abort"] event has been
    dispatched exactly once, before the exit or at it, and is never
    dispatched again. Whether a cancellation source brings the exit about is
    another matter: it does when the form is registered
    ([abort_rejects_registered]), and not when the abort came earlier. *)
Lemma finally_aborts_exactly_once (w : World) (controller : SignalRef)
  (registration : Deferred) :
  world_ok w → is_Some (signals w !! controller) →
  (is_Some (transform_afterRegisterForm controller registration w)
     ↔ is_settled registration w = true)
  ∧ ∀ out w', transform_afterRegisterForm controller registration w = Some (out, w') →
      ((∃ v, out = Return v ∧ promises w !! registration = Some (Fulfilled v))
       ∨ (∃ e, out = Raise e ∧ promises w !! registration = Some (Rejected e)))
      ∧ signal_aborted controller w' = true
      ∧ abort_events controller w' = 1
      ∧ ∀ evs, abort_events controller (run evs w') = 1.
Proof.
  intros Hok Hc. split; [apply afterRegisterForm_settled|].
  intros out w' Hexit.
  destruct (afterRegisterForm_exit _ _ _ _ _ Hexit) as [-> Hout].
  pose proof (signal_abort_aborts controller w Hc) as Ha.
  pose proof (world_ok_signal_abort controller w Hok) as Hok'.
  split; [done|]. split; [done|]. split.
  - by rewrite (w_trace _ Hok'), Ha.
  - intros evs.
    rewrite (w_trace _ (world_ok_run evs _ Hok')).
    by rewrite aborted_run.
Qed.

(** The caller aborts while the modal form is registered: one [showModal],
    one ["abort"] event at the controller, no resolution. *)
Example finally_after_abort_while_registered :
  ∃ w', transform_afterRegisterForm 1 0 worldModalAborted
          = Some (Raise (CancelError "User cancelled the action"), w')
    ∧ abort_events 1 w' = 1
    ∧ trace w' = [ShowModal {| param_nonce := nonceA; param_opener := targetA;
                               param_mode := "modal" |} 1;
                  AbortEvent 0; AbortEvent 1].
Proof.
  assert (Hok : world_ok worldModalAborted)
    by apply world_ok_react, world_ok_reachable.
  assert (Hc : is_Some (signals worldModalAborted !! 1)) by (by eexists).
  destruct (finally_aborts_exactly_once worldModalAborted 1 0 Hok Hc) as (_ & Hexit).
  eexists. split; [reflexivity|]. split; [|reflexivity].
  by destruct (Hexit _ _ eq_refl) as (_ & _ & H1 & _).
Qed.

(** ** Cancellation while the form is registered *)

(** What [cancelForm(nonce)] does to a world with a sound store. *)
Lemma cancel_one w m :
  store_ok w →
  store_ok (void (cancelForm [m]) w)
  ∧ (∀ t, t ≠ m → forms (void (cancelForm [m]) w) !! t = forms w !! t)
  ∧ (∀ f, forms w !! m = Some f →
       promises (void (cancelForm [m]) w) !! registration f
         = Some (Rejected (CancelError "User cancelled the action")))
  ∧ (∀ p x, x ≠ Pending → promises w !! p = Some x →
       promises (void (cancelForm [m]) w) !! p = Some x).
Proof.
  intros Hok. pose proof (ok_context _ Hok) as Hc.
  assert (Hv : void (cancelForm [m]) w = void (cancelForm_loop [m]) w).
  { unfold void. by rewrite cancelForm_run. }
  split; [by apply store_ok_cancelForm|]. rewrite Hv. split; [|split].
  - intros t Ht. rewrite cancelForm_loop_forms by done.
    rewrite decide_False; [done|]. by intros ?%list_elem_of_singleton.
  - intros f Hf. eapply loop_settlements_held; [done|done|by left].
  - intros p x Hx Hp. by apply (stays_cancelForm_loop p x Hx).
Qed.

Section AbortRejects.
Variable n : UUID.
Variable f : RegisteredForm.

Lemma registered_or_cancelled_cancelForm m w :
  registered_or_cancelled n f w →
  registered_or_cancelled n f (void (cancelForm [m]) w).
Proof.
  intros [Hok H]. destruct (cancel_one w m Hok) as (Hok' & Hf & Hrej & Hstay).
  split; [done|]. destruct H as [H|H].
  - destruct (decide (n = m)) as [->|Hne].
    + right. by apply Hrej.
    + left. by rewrite Hf.
  - right. by apply Hstay.
Qed.

Lemma registered_or_cancelled_listener l w :
  registered_or_cancelled n f w →
  registered_or_cancelled n f (runAbortListener l w).
Proof.
  intros H. destruct l as [m|m]; simpl; apply registered_or_cancelled_cancelForm; [done|].
  destruct H as [Hok H]. split; [by eapply store_ok_same; [..|apply Hok]|done].
Qed.

Lemma own_listener_cancels l w :
  registered_or_cancelled n f w → l = CallerAbortListener n ∨ l = ControllerAbortListener n →
  cancelled (registration f) (runAbortListener l w).
Proof.
  intros [Hok H] Hl.
  assert (Hgo : ∀ w0, store_ok w0 → forms w0 !! n = Some f ∨ cancelled (registration f) w0 →
                  cancelled (registration f) (void (cancelForm [n]) w0)).
  { intros w0 Hok0 H0. destruct (cancel_one w0 n Hok0) as (_ & _ & Hrej & Hstay).
    destruct H0 as [H0|H0]; [by apply Hrej | by apply Hstay]. }
  destruct Hl as [->| ->]; simpl; apply Hgo; try done.
  by eapply store_ok_same; [..|apply Hok].
Qed.

Lemma listeners_cancel ls w :
  registered_or_cancelled n f w → CallerAbortListener n ∈ ls ∨ ControllerAbortListener n ∈ ls →
  cancelled (registration f) (foldl (fun w' l => runAbortListener l w') w ls).
Proof.
  revert w. induction ls as [|l ls IH]; intros w HQ Hin.
  { destruct Hin as [Hin|Hin]; by apply elem_of_nil in Hin. }
  simpl.
  destruct (decide (l = CallerAbortListener n ∨ l = ControllerAbortListener n)) as [Hl|Hl].
  - pose proof (own_listener_cancels l w HQ Hl) as Hrej.
    apply (foldl_invariant (cancelled (registration f)) runAbortListener); [|done].
    intros l' w' Hw'. by apply (stays_runAbortListener (registration f)).
  - apply IH; [by apply registered_or_cancelled_listener|].
    destruct Hin as [Hin|Hin]; apply elem_of_cons in Hin as [Heq|Hin]; subst; tauto.
Qed.

(** An abort of a signal that carries the caller's listener for a
    registered form rejects the promise of the form with the
    [CancelError], and [transform] throws it. *)
Lemma abort_rejects_registered s sig w :
  store_ok w → signals w !! s = Some sig → aborted sig = false →
  CallerAbortListener n ∈ abortListeners sig ∨ ControllerAbortListener n ∈ abortListeners sig →
  forms w !! n = Some f →
  cancelled (registration f) (signal_abort s w)
  ∧ ∀ c, transform_afterRegisterForm c (registration f) (signal_abort s w)
           = Some (Raise (CancelError "User cancelled the action"),
                   signal_abort c (signal_abort s w)).
Proof.
  intros Hok Hs Hab Hin Hf.
  assert (Hrej : cancelled (registration f) (signal_abort s w)).
  { unfold signal_abort. rewrite Hs, Hab. apply listeners_cancel; [|done].
    split; [by eapply store_ok_same; [..|apply Hok]|by left]. }
  split; [done|]. intros c. unfold transform_afterRegisterForm.
  unfold cancelled, stays in Hrej. by rewrite Hrej.
Qed.
End AbortRejects.

(** [cancelForm] on a registered nonce rejects its promise with the
    [CancelError], and no later run fulfils it. *)
Lemma cancelForm_rejects_for_good w n f :
  store_ok w → forms w !! n = Some f →
  promises (void (cancelForm [n]) w) !! registration f
    = Some (Rejected (CancelError "User cancelled the action"))
  ∧ ∀ evs, promises (run evs (void (cancelForm [n]) w)) !! registration f
             = Some (Rejected (CancelError "User cancelled the action")).
Proof.
  intros Hok Hf. destruct (cancel_one w n Hok) as (_ & _ & Hrej & _).
  split; [by apply Hrej|]. intros evs.
  apply (stays_run (registration f)); [done|]. by apply Hrej.
Qed.

(** The caller aborts while the modal form is registered: [transform]
    throws the [CancelError]. *)
Example abort_while_registered :
  transform_afterRegisterForm 1 0 worldModalAborted
    = Some (Raise (CancelError "User cancelled the action"),
            signal_abort 1 worldModalAborted).
Proof.
  apply (abort_rejects_registered nonceA {| definition := formA; registration := 0 |}
           0 {| aborted := false; abortListeners := [CallerAbortListener nonceA] |}
           worldModal).
  - apply world_ok_reachable.
  - reflexivity.
  - reflexivity.
  - left. by left.
  - reflexivity.
Qed.

(** C4, on the code. The caller's signal fires while [transform] awaits
    [createFrameSource] (line 115): the listener of line 124 is registered on
    a signal that has fired already and never runs. [transform] goes on to
    show the modal and to register the form, and stays suspended on a pending
    promise; a second abort changes nothing; when the user submits,
    [transform] returns the value although the signal fired before the
    settlement. On the sidebar path the same happens when the signal fires
    while [ensureSidebar()] is awaited (line 133): the listener runs, finds no
    entry, and the form is registered afterwards. *)
Theorem abort_before_registration_is_lost :
  (run [NewAbortController; Call_transform nonceA argA optionsAbortable] initialWorld
     = void newAbortController initialWorld
   ∧ transform nonceA argA optionsAbortable (void newAbortController initialWorld)
       = (Suspend (AwaitCreateFrameSource nonceA (destructure argA) optionsAbortable),
          void newAbortController initialWorld)
   ∧ resume (AwaitCreateFrameSource nonceA (destructure argA) optionsAbortable) targetA
       (signal_abort 0 (void newAbortController initialWorld))
       = Some (Suspend (AwaitRegisterForm 1 0), worldLostAbort))
  ∧ signal_aborted 0 worldLostAbort = true
  ∧ forms worldLostAbort !! nonceA = Some {| definition := formA; registration := 0 |}
  ∧ promises worldLostAbort !! 0 = Some Pending
  ∧ transform_afterRegisterForm 1 0 worldLostAbort = None
  ∧ signal_abort 0 worldLostAbort = worldLostAbort
  ∧ (∃ w', transform_afterRegisterForm 1 0
             (react (Call_resolveForm nonceA valuesA) worldLostAbort)
             = Some (Return valuesA, w'))
  ∧ (∃ w1,
       resume (AwaitCreateFrameSource nonceA (destructure argSidebar) optionsAbortable) targetA
         (void newAbortController initialWorld)
         = Some (Suspend (AwaitEnsureSidebar nonceA formA optionsAbortable 1), w1)
       ∧ resume (AwaitEnsureSidebar nonceA formA optionsAbortable 1) targetA
           (signal_abort 0 w1)
           = Some (Suspend (AwaitRegisterForm 1 0), worldLostAbortSidebar))
  ∧ signal_aborted 0 worldLostAbortSidebar = true
  ∧ forms worldLostAbortSidebar !! nonceA
      = Some {| definition := formA; registration := 0 |}
  ∧ promises worldLostAbortSidebar !! 0 = Some Pending
  ∧ transform_afterRegisterForm 1 0 worldLostAbortSidebar = None
  ∧ signal_abort 0 worldLostAbortSidebar = worldLostAbortSidebar.
Proof.
  split; [by repeat split|].
  split; [reflexivity|]. split; [reflexivity|]. split; [reflexivity|].
  split; [reflexivity|]. split; [reflexivity|]. split; [by eexists|].
  split; [eexists; split; reflexivity|].
  split; [reflexivity|]. split; [reflexivity|]. split; [reflexivity|].
  split; reflexivity.
Qed.

(** The user closes the sidebar: the controller is aborted, the panel entry
    is hidden once, the listener on [window] is gone, and [transform] throws
    the [CancelError]; its [finally] finds the controller aborted and hides
    nothing a second time. *)
Example panel_hidden_cancels :
  transform_afterRegisterForm 1 0 worldSidebar = None
  ∧ transform_afterRegisterForm 1 0 worldSidebarHidden
      = Some (Raise (CancelError "User cancelled the action"), worldSidebarHidden)
  ∧ windowListeners worldSidebarHidden = []
  ∧ trace worldSidebarHidden
      = [EnsureSidebar; ShowSidebarForm nonceB nonceA formA;
         AbortEvent 1; HideSidebarForm nonceA].
Proof. repeat split. Qed.

(** ** Listeners for ["abort"] are never taken off *)

Section ListenerStays.
Variable s : SignalRef.
Variable l : AbortListener.

Lemma listens_still f w : still f → listens s l w → listens s l (f w).
Proof. intros Hf H. destruct (Hf w) as (Hs & _). unfold listens. by rewrite Hs. Qed.

Lemma listens_signal_abort s' w : listens s l w → listens s l (signal_abort s' w).
Proof.
  intros (sig & Hs & Hl).
  destruct (signals w !! s') as [sig'|] eqn:Hs';
    [|rewrite signal_abort_noop by auto; by exists sig].
  destruct (aborted sig') eqn:Ha'.
  { rewrite signal_abort_noop by (left; unfold signal_aborted; by rewrite Hs').
    by exists sig. }
  destruct (signal_abort_run s' w sig' Hs' Ha') as (Hsig & _).
  unfold listens. rewrite Hsig. destruct (decide (s = s')) as [->|Hne].
  - assert (sig' = sig) by congruence. subst sig'.
    exists {| aborted := true; abortListeners := abortListeners sig |}.
    split; [|done]. apply list_lookup_insert_eq. by eapply lookup_lt_Some.
  - exists sig. split; [|done]. by rewrite list_lookup_insert_ne.
Qed.

Lemma listens_dispatchPanelHiding w : listens s l w → listens s l (dispatchPanelHiding w).
Proof.
  intros H. unfold dispatchPanelHiding.
  apply (foldl_invariant (listens s l)
           (fun l' w' => if bool_decide (l' ∈ windowListeners w')
                         then signal_abort (callback_controller l') w' else w')); [|done].
  intros l' w' Hw'. case_bool_decide; [by apply listens_signal_abort|done].
Qed.

Lemma listens_newAbortController w : listens s l w → listens s l (void newAbortController w).
Proof.
  intros (sig & Hs & Hl). exists sig. split; [|done]. simpl.
  rewrite lookup_app_l; [done|]. by eapply lookup_lt_Some.
Qed.

Lemma listens_signal_addEventListener s' l' w :
  listens s l w → listens s l (void (signal_addEventListener s' l') w).
Proof.
  intros (sig & Hs & Hl). unfold void, signal_addEventListener.
  destruct (signals w !! s') as [sig'|] eqn:Hs'; simpl; [|by exists sig].
  unfold listens. simpl. destruct (decide (s = s')) as [->|Hne].
  - assert (sig' = sig) by congruence. subst sig'.
    eexists. split; [apply list_lookup_insert_eq; by eapply lookup_lt_Some|].
    simpl. apply elem_of_app. by left.
  - exists sig. split; [|done]. by rewrite list_lookup_insert_ne.
Qed.

Lemma listens_window_addEventListener l' w :
  listens s l w → listens s l (void (window_addEventListener l') w).
Proof.
  unfold void, window_addEventListener.
  by destruct (signal_aborted (option_signal l') w).
Qed.

Lemma listens_try_registerForm c n d w :
  listens s l w → listens s l (snd (try_registerForm c n d w)).
Proof.
  intros H. unfold try_registerForm.
  pose proof (listens_still (void (registerForm n d)) w
                (still_void _ (quiet_registerForm n d)) H) as H'.
  unfold void in H'. destruct (registerForm n d w) as [[p|e] w']; simpl in *; [done|].
  by apply listens_signal_abort.
Qed.

Lemma listens_react ev w : listens s l w → listens s l (react ev w).
Proof.
  intros H. destruct ev as [n d|n|n v|ns|n arg options|at_ target| |s'| ]; simpl.
  - apply listens_still; [apply still_void; auto with quiet | done].
  - apply listens_still; [apply still_void; auto with quiet | done].
  - apply listens_still; [apply still_void; auto with quiet | done].
  - apply listens_still; [apply still_void; auto with quiet | done].
  - unfold transform, expectContext. by case_decide.
  - destruct at_ as [n locals options|n d options c|c p]; simpl.
    + unfold transform_afterCreateFrameSource.
      set (w1 := match abortSignal options with Some s0 => _ | None => w end).
      assert (H1 : listens s l w1).
      { subst w1. destruct (abortSignal options); [|done].
        by apply listens_signal_addEventListener. }
      case_decide; simpl.
      * by apply listens_newAbortController.
      * apply listens_try_registerForm. by apply listens_newAbortController.
    + unfold transform_afterEnsureSidebar.
      apply listens_try_registerForm, listens_signal_addEventListener,
        listens_window_addEventListener. done.
    + unfold transform_afterRegisterForm.
      destruct (promises w !! p) as [[| |]|]; try done; by apply listens_signal_abort.
  - by apply listens_newAbortController.
  - by apply listens_signal_abort.
  - by apply listens_dispatchPanelHiding.
Qed.

(** Nothing in the two modules takes a listener off an abort signal. *)
Lemma listens_run evs w : listens s l w → listens s l (run evs w).
Proof. intros H. unfold run. by apply (foldl_invariant (listens s l)); [apply listens_react|]. Qed.
End ListenerStays.

(** C7, on the code. Teardown does not run on a caller-side abort that
    comes before the form is registered. The caller aborts while [transform]
    awaits [createFrameSource] (line 115): [transform] goes on, calls
    [showModal] with a new controller and registers the form; no ["abort"]
    event is ever dispatched at that controller, [transform] does not leave
    its [await], and a further abort of the caller changes nothing. So the
    surface that was created is matched by no teardown. The same on the
    sidebar path for an abort while [ensureSidebar()] is awaited (line 133):
    [showSidebarForm] is called afterwards and [hideSidebarForm] never. *)
Theorem lost_abort_leaves_the_surface_up :
  (transform nonceA argA optionsAbortable (void newAbortController initialWorld)
     = (Suspend (AwaitCreateFrameSource nonceA (destructure argA) optionsAbortable),
        void newAbortController initialWorld)
   ∧ resume (AwaitCreateFrameSource nonceA (destructure argA) optionsAbortable) targetA
       (signal_abort 0 (void newAbortController initialWorld))
       = Some (Suspend (AwaitRegisterForm 1 0), worldLostAbort))
  ∧ trace worldLostAbort
      = [AbortEvent 0;
         ShowModal {| param_nonce := nonceA; param_opener := targetA;
                      param_mode := "modal" |} 1]
  ∧ signal_aborted 0 worldLostAbort = true
  ∧ signal_aborted 1 worldLostAbort = false
  ∧ abort_events 1 worldLostAbort = 0
  ∧ transform_afterRegisterForm 1 0 worldLostAbort = None
  ∧ (∀ k, run (replicate k (Abort 0)) worldLostAbort = worldLostAbort)
  ∧ (∃ w1,
       resume (AwaitCreateFrameSource nonceA (destructure argSidebar) optionsAbortable) targetA
         (void newAbortController initialWorld)
         = Some (Suspend (AwaitEnsureSidebar nonceA formA optionsAbortable 1), w1)
       ∧ resume (AwaitEnsureSidebar nonceA formA optionsAbortable 1) targetA
           (signal_abort 0 w1)
           = Some (Suspend (AwaitRegisterForm 1 0), worldLostAbortSidebar))
  ∧ trace worldLostAbortSidebar
      = [EnsureSidebar; AbortEvent 0; ShowSidebarForm nonceB nonceA formA]
  ∧ signal_aborted 1 worldLostAbortSidebar = false
  ∧ abort_events 1 worldLostAbortSidebar = 0
  ∧ transform_afterRegisterForm 1 0 worldLostAbortSidebar = None
  ∧ (∀ k, run (replicate k (Abort 0)) worldLostAbortSidebar = worldLostAbortSidebar).
Proof.
  assert (Hrep : ∀ w, signal_abort 0 w = w → ∀ k, run (replicate k (Abort 0)) w = w).
  { intros w Hw k. induction k as [|k IH]; [done|]. simpl. by rewrite Hw. }
  split; [by split|].
  split; [reflexivity|]. split; [reflexivity|]. split; [reflexivity|].
  split; [reflexivity|]. split; [reflexivity|]. split; [by apply Hrep|].
  split; [eexists; split; reflexivity|].
  split; [reflexivity|]. split; [reflexivity|]. split; [reflexivity|].
  split; [reflexivity|]. by apply Hrep.
Qed.

(** C8, on the code. The listener of lines 124-126 is never released. The
    user submits the modal form and [transform] returns: the listener is
    still registered at the caller's signal, which has not fired, and no
    later event takes it off. On the sidebar path the same run releases the
    listener on [window] (through the [signal] option of lines 147-151) and
    aborts the controller, whose own listener has hidden the panel entry once
    and cannot run again; the caller's listener alone is left. And when the
    caller's signal fires while [ensureSidebar()] is awaited, the listeners on
    [window] and on the controller are registered after the source has fired,
    and are there while [transform] waits. *)
Theorem caller_abort_listener_is_never_released :
  (transform_afterRegisterForm 1 0 worldModalResolved
     = Some (Return valuesA, worldModalReturned)
   ∧ dangling (CallerAbortListener nonceA) worldModalReturned
   ∧ ¬ listeners_released nonceA 1 worldModalReturned
   ∧ ∀ evs, listens 0 (CallerAbortListener nonceA) (run evs worldModalReturned))
  ∧ (windowListeners worldSidebar = [panelHidingListener 1]
     ∧ listens 1 (ControllerAbortListener nonceA) worldSidebar
     ∧ listens 0 (CallerAbortListener nonceA) worldSidebar
     ∧ transform_afterRegisterForm 1 0 worldSidebarResolved
         = Some (Return valuesA, worldSidebarReturned)
     ∧ windowListeners worldSidebarReturned = []
     ∧ signal_aborted 1 worldSidebarReturned = true
     ∧ signal_abort 1 worldSidebarReturned = worldSidebarReturned
     ∧ trace worldSidebarReturned
         = [EnsureSidebar; ShowSidebarForm nonceB nonceA formA;
            AbortEvent 1; HideSidebarForm nonceA]
     ∧ dangling (CallerAbortListener nonceA) worldSidebarReturned
     ∧ ¬ listeners_released nonceA 1 worldSidebarReturned
     ∧ ∀ evs, listens 0 (CallerAbortListener nonceA) (run evs worldSidebarReturned))
  ∧ (signal_aborted 0 worldLostAbortSidebar = true
     ∧ transform_afterRegisterForm 1 0 worldLostAbortSidebar = None
     ∧ windowListeners worldLostAbortSidebar = [panelHidingListener 1]
     ∧ dangling (ControllerAbortListener nonceA) worldLostAbortSidebar
     ∧ ¬ listeners_released nonceA 1 worldLostAbortSidebar).
Proof.
  assert (Hcaller : ∀ w, signals w !! 0
             = Some {| aborted := false; abortListeners := [CallerAbortListener nonceA] |} →
             dangling (CallerAbortListener nonceA) w
             ∧ ¬ listeners_released nonceA 1 w
             ∧ ∀ evs, listens 0 (CallerAbortListener nonceA) (run evs w)).
  { intros w Hw.
    assert (Hd : dangling (CallerAbortListener nonceA) w).
    { exists 0. eexists. split; [exact Hw|]. split; [reflexivity|]. by left. }
    split; [done|]. split; [by intros (H & _)|].
    intros evs. apply listens_run. eexists. split; [exact Hw|]. by left. }
  split; [|split].
  - split; [reflexivity|]. by apply Hcaller.
  - split; [reflexivity|].
    split; [eexists; split; [reflexivity|by left]|].
    split; [eexists; split; [reflexivity|by left]|].
    split; [reflexivity|]. split; [reflexivity|]. split; [reflexivity|].
    split; [reflexivity|]. split; [reflexivity|]. by apply Hcaller.
  - split; [reflexivity|]. split; [reflexivity|]. split; [reflexivity|].
    assert (Hd : dangling (ControllerAbortListener nonceA) worldLostAbortSidebar).
    { exists 1. eexists. split; [reflexivity|]. split; [reflexivity|]. by left. }
    split; [done|]. by intros (_ & H & _).
Qed.

(** * Further properties of the two modules *)

(** ** What a call leaves as it is *)

Lemma guard_stops_registerForm w n d :
  context w ≠ "contentScript" →
  registerForm n d w = (Throw (ContextError "contentScript"), w).
Proof.
  intros Hc. unfold registerForm, mbind, M_bind, bind. by rewrite expectContext_stop.
Qed.

Lemma guard_stops_resolveForm w n v :
  context w ≠ "contentScript" →
  resolveForm n v w = (Throw (ContextError "contentScript"), w).
Proof.
  intros Hc. unfold resolveForm, mbind, M_bind, bind. by rewrite expectContext_stop.
Qed.

Lemma guard_stops_cancelForm w ns :
  context w ≠ "contentScript" →
  cancelForm ns w = (Throw (ContextError "contentScript"), w).
Proof.
  intros Hc. unfold cancelForm, mbind, M_bind, bind. by rewrite expectContext_stop.
Qed.

Lemma guard_stops_getFormDefinition w n :
  context w ≠ "contentScript" →
  getFormDefinition n w = (Throw (ContextError "contentScript"), w).
Proof.
  intros Hc. unfold getFormDefinition, mbind, M_bind, bind.
  by rewrite expectContext_stop.
Qed.

(** The loop of [cancelForm] writes to [forms] and [promises] only. *)
Lemma cancelForm_loop_frame ns w :
  context w = "contentScript" →
  context (void (cancelForm_loop ns) w) = context w
  ∧ length (promises (void (cancelForm_loop ns) w)) = length (promises w)
  ∧ signals (void (cancelForm_loop ns) w) = signals w
  ∧ windowListeners (void (cancelForm_loop ns) w) = windowListeners w
  ∧ trace (void (cancelForm_loop ns) w) = trace w.
Proof.
  revert w. induction ns as [|n rest IH]; intros w Hc; [done|].
  unfold void. rewrite cancelForm_loop_cons by done.
  destruct (cancelForm_body_run w Hc n) as (w' & Hrun & Hc' & _ & Hp & Hs & Hl & Ht).
  replace (void (cancelForm_body n) w) with w' by (unfold void; by rewrite Hrun).
  fold (void (cancelForm_loop rest) w').
  destruct (IH w') as (-> & -> & -> & -> & ->); [congruence|].
  repeat split; try done.
  rewrite Hp. destruct (forms w !! n); [apply settle_length | done].
Qed.

Lemma trace_cancelForm ns w : trace (void (cancelForm ns) w) = trace w.
Proof.
  destruct (decide (context w = "contentScript")) as [Hc|Hc].
  - unfold void. rewrite cancelForm_run by done. by apply cancelForm_loop_frame.
  - unfold void. by rewrite guard_stops_cancelForm.
Qed.

(** X1. Requests do not interfere. In a sound store, whatever
    [registerForm], [resolveForm] or [cancelForm] does under other nonces,
    the entry of a nonce stays the same and its promise stays pending. *)
Theorem other_nonces_untouched (w : World) (t t' : UUID) (f' : RegisteredForm) :
  store_ok w → t' ≠ t → forms w !! t' = Some f' →
  (∀ d, forms (void (registerForm t d) w) !! t' = Some f'
        ∧ promises (void (registerForm t d) w) !! registration f' = Some Pending)
  ∧ (∀ v, forms (void (resolveForm t v) w) !! t' = Some f'
          ∧ promises (void (resolveForm t v) w) !! registration f' = Some Pending)
  ∧ (∀ ns, t' ∉ ns →
       forms (void (cancelForm ns) w) !! t' = Some f'
       ∧ promises (void (cancelForm ns) w) !! registration f' = Some Pending).
Proof.
  intros Hok Hne Hf'. pose proof (ok_context _ Hok) as Hc.
  assert (Hgo : ∀ w1, store_ok w1 → forms w1 !! t' = Some f' →
                  forms w1 !! t' = Some f' ∧ promises w1 !! registration f' = Some Pending).
  { intros w1 Hok1 H1. split; [done|]. by eapply ok_pending. }
  split; [|split].
  - intros d. apply Hgo; [by apply store_ok_registerForm|].
    unfold void. destruct (registerForm_run w Hc t d) as (w1 & -> & _ & Hf1 & _).
    simpl. by rewrite Hf1, lookup_insert_ne.
  - intros v. apply Hgo; [by apply store_ok_resolveForm|].
    unfold void. destruct (forms w !! t) as [f|] eqn:Hf.
    + destruct (resolveForm_run w Hc t v f Hf) as (w1 & -> & _ & Hf1 & _).
      simpl. by rewrite Hf1, lookup_delete_ne.
    + by rewrite resolveForm_missing.
  - intros ns Hnin. apply Hgo; [by apply store_ok_cancelForm|].
    unfold void. rewrite cancelForm_run by done.
    fold (void (cancelForm_loop ns) w).
    rewrite cancelForm_loop_forms by done. by rewrite decide_False.
Qed.

Lemma other_nonces_untouched_witness :
  store_ok worldAB ∧ nonceA ≠ nonceB
  ∧ forms worldAB !! nonceA = Some {| definition := formA; registration := 0 |}
  ∧ forms (void (resolveForm nonceB valuesA) worldAB) !! nonceA
      = Some {| definition := formA; registration := 0 |}
  ∧ promises (void (resolveForm nonceB valuesA) worldAB) !! 0 = Some Pending.
Proof.
  assert (Hok : store_ok worldAB)
    by apply store_ok_registerForm, store_ok_registerForm, store_ok_initial.
  assert (Hne : nonceA ≠ nonceB) by discriminate.
  split; [exact Hok|]. split; [exact Hne|]. split; [reflexivity|].
  destruct (other_nonces_untouched worldAB nonceB nonceA
              {| definition := formA; registration := 0 |} Hok Hne eq_refl)
    as (_ & H & _).
  exact (H valuesA).
Defined.

(** X2. The definition of a form can be looked up as long as the form is
    registered, and no longer: [getFormDefinition] returns it without
    changing anything, any number of times, and throws the [TypeError] as
    soon as [resolveForm] or [cancelForm] has settled the form. *)
Theorem definition_lives_until_settlement (w : World) (nonce : UUID) (f : RegisteredForm) :
  context w = "contentScript" → forms w !! nonce = Some f →
  getFormDefinition nonce w = (Ok (definition f), w)
  ∧ (∀ values, ∃ e,
       getFormDefinition nonce (void (resolveForm nonce values) w)
         = (Throw (TypeError e), void (resolveForm nonce values) w))
  ∧ (∀ formNonces, nonce ∈ formNonces → ∃ e,
       getFormDefinition nonce (void (cancelForm formNonces) w)
         = (Throw (TypeError e), void (cancelForm formNonces) w)).
Proof.
  intros Hc Hf. split; [by rewrite getFormDefinition_run, Hf|]. split.
  - intros values. unfold void.
    destruct (resolveForm_run w Hc nonce values f Hf) as (w1 & -> & Hc1 & Hf1 & _).
    simpl. rewrite getFormDefinition_run by congruence.
    rewrite Hf1, lookup_delete_eq. eauto.
  - intros formNonces Hin.
    assert (Hv : void (cancelForm formNonces) w = void (cancelForm_loop formNonces) w).
    { unfold void. by rewrite cancelForm_run. }
    rewrite Hv.
    destruct (cancelForm_loop_frame formNonces w Hc) as (Hc1 & _).
    rewrite getFormDefinition_run by congruence.
    rewrite cancelForm_loop_forms by done. rewrite decide_True by done. eauto.
Qed.

Lemma definition_lives_until_settlement_witness :
  context worldA = "contentScript"
  ∧ forms worldA !! nonceA = Some {| definition := formA; registration := 0 |}
  ∧ getFormDefinition nonceA worldA = (Ok formA, worldA)
  ∧ ∃ e, getFormDefinition nonceA (void (cancelForm [nonceB; nonceA]) worldA)
           = (Throw (TypeError e), void (cancelForm [nonceB; nonceA]) worldA).
Proof.
  destruct (definition_lives_until_settlement worldA nonceA
              {| definition := formA; registration := 0 |} eq_refl eq_refl)
    as (H1 & _ & H3).
  split; [reflexivity|]. split; [reflexivity|]. split; [exact H1|].
  apply H3. right. by left.
Defined.

(** X3. The latest registration wins. After two [registerForm] under one
    nonce, [getFormDefinition] returns the second definition, and
    [resolveForm] fulfils the second promise and not the first. *)
Theorem latest_registration_wins (w : World) (nonce : UUID) (d1 d2 : FormDefinition)
  (values : JsValue) :
  context w = "contentScript" →
  ∃ w2 w3,
    void (registerForm nonce d2) (void (registerForm nonce d1) w) = w2
    ∧ getFormDefinition nonce w2 = (Ok d2, w2)
    ∧ resolveForm nonce values w2 = (Ok tt, w3)
    ∧ promises w3 !! S (length (promises w)) = Some (Fulfilled values)
    ∧ promises w3 !! length (promises w) = Some Pending.
Proof.
  intros Hc.
  destruct (registerForm_run w Hc nonce d1) as (w1 & Hrun1 & Hc1 & Hf1 & Hp1 & _).
  assert (Hc1' : context w1 = "contentScript") by congruence.
  destruct (registerForm_run w1 Hc1' nonce d2) as (w2 & Hrun2 & Hc2 & Hf2 & Hp2 & _).
  assert (Hc2' : context w2 = "contentScript") by congruence.
  assert (Hl1 : length (promises w1) = S (length (promises w))).
  { rewrite Hp1, length_app. simpl. lia. }
  assert (Hn2 : forms w2 !! nonce
                = Some {| definition := d2; registration := S (length (promises w)) |}).
  { by rewrite Hf2, lookup_insert_eq, Hl1. }
  destruct (resolveForm_run w2 Hc2' nonce values _ Hn2) as (w3 & Hrun3 & _ & _ & Hp3 & _).
  exists w2, w3. split.
  { unfold void. rewrite Hrun1. simpl. by rewrite Hrun2. }
  split; [by rewrite getFormDefinition_run, Hn2|]. split; [done|].
  assert (Hnew : promises w2 !! S (length (promises w)) = Some Pending).
  { rewrite Hp2, <- Hl1, lookup_app_r by lia. by rewrite Nat.sub_diag. }
  assert (Hold : promises w2 !! length (promises w) = Some Pending).
  { rewrite Hp2, lookup_app_l by lia.
    rewrite Hp1, lookup_app_r by lia. by rewrite Nat.sub_diag. }
  rewrite Hp3. simpl. split.
  - by apply settle_pending.
  - rewrite settle_other by lia. done.
Qed.

Lemma latest_registration_wins_witness :
  context initialWorld = "contentScript"
  ∧ ∃ w2 w3,
      void (registerForm nonceA formB) (void (registerForm nonceA formA) initialWorld) = w2
      ∧ getFormDefinition nonceA w2 = (Ok formB, w2)
      ∧ resolveForm nonceA JNull w2 = (Ok tt, w3)
      ∧ promises w3 !! 1 = Some (Fulfilled JNull)
      ∧ promises w3 !! 0 = Some Pending.
Proof.
  split; [reflexivity|].
  exact (latest_registration_wins initialWorld nonceA formA formB JNull eq_refl).
Defined.

(** X4. A nonce can be used again once its form is settled: [registerForm]
    under a nonce that [resolveForm] or [cancelForm] has just settled warns
    about nothing, makes a new pending promise, and leaves the settled
    promise as it was. *)
Theorem nonce_is_free_after_settlement (w : World) (nonce : UUID)
  (f : RegisteredForm) (d : FormDefinition) :
  store_ok w → forms w !! nonce = Some f →
  (∀ values, ∃ w1 w2,
     resolveForm nonce values w = (Ok tt, w1)
     ∧ registerForm nonce d w1 = (Ok (length (promises w)), w2)
     ∧ trace w2 = trace w
     ∧ forms w2 !! nonce = Some {| definition := d; registration := length (promises w) |}
     ∧ promises w2 !! length (promises w) = Some Pending
     ∧ promises w2 !! registration f = Some (Fulfilled values))
  ∧ ∃ w1 w2,
      cancelForm [nonce] w = (Ok tt, w1)
      ∧ registerForm nonce d w1 = (Ok (length (promises w)), w2)
      ∧ trace w2 = trace w
      ∧ forms w2 !! nonce = Some {| definition := d; registration := length (promises w) |}
      ∧ promises w2 !! length (promises w) = Some Pending
      ∧ promises w2 !! registration f
          = Some (Rejected (CancelError "User cancelled the action")).
Proof.
  intros Hok Hf. pose proof (ok_context _ Hok) as Hc.
  pose proof (ok_pending _ Hok _ _ Hf) as Hpend.
  pose proof (lookup_lt_Some _ _ _ Hpend) as Hlt.
  assert (Hgo : ∀ w1 s,
            context w1 = context w → forms w1 = delete nonce (forms w) →
            promises w1 = settle (registration f) s (promises w) → trace w1 = trace w →
            ∃ w2, registerForm nonce d w1 = (Ok (length (promises w)), w2)
              ∧ trace w2 = trace w
              ∧ forms w2 !! nonce
                  = Some {| definition := d; registration := length (promises w) |}
              ∧ promises w2 !! length (promises w) = Some Pending
              ∧ promises w2 !! registration f = Some s).
  { intros w1 s Hc1 Hf1 Hp1 Ht1.
    assert (Hc1' : context w1 = "contentScript") by congruence.
    destruct (registerForm_run w1 Hc1' nonce d) as (w2 & Hrun & _ & Hf2 & Hp2 & _ & _ & Ht2).
    assert (Hlen : length (promises w1) = length (promises w))
      by (by rewrite Hp1, settle_length).
    rewrite Hlen in *. exists w2. split; [done|]. split.
    { rewrite Ht2, Hf1, lookup_delete_eq, bool_decide_false by (by intros [? ?]).
      by rewrite app_nil_r. }
    split; [by rewrite Hf2, lookup_insert_eq|]. split.
    - rewrite Hp2, lookup_app_r by lia. by rewrite Hlen, Nat.sub_diag.
    - rewrite Hp2, lookup_app_l by lia. rewrite Hp1. by apply settle_pending. }
  split.
  - intros values.
    destruct (resolveForm_run w Hc nonce values f Hf) as (w1 & Hrun & Hc1 & Hf1 & Hp1 & _ & _ & Ht1).
    destruct (Hgo w1 (Fulfilled values) Hc1 Hf1 Hp1 Ht1) as (w2 & H).
    by exists w1, w2.
  - destruct (cancelForm_body_run w Hc nonce) as (w1 & Hrun & Hc1 & Hf1 & Hp1 & _ & _ & Ht1).
    rewrite Hf in Hp1.
    destruct (Hgo w1 _ Hc1 Hf1 Hp1 Ht1) as (w2 & H).
    exists w1, w2. split; [|done].
    rewrite cancelForm_run, cancelForm_loop_cons by done. unfold void. by rewrite Hrun.
Qed.

Lemma nonce_is_free_after_settlement_witness :
  store_ok worldA
  ∧ forms worldA !! nonceA = Some {| definition := formA; registration := 0 |}
  ∧ ∃ w1 w2,
      resolveForm nonceA valuesA worldA = (Ok tt, w1)
      ∧ registerForm nonceA formB w1 = (Ok 1, w2)
      ∧ trace w2 = []
      ∧ promises w2 = [Fulfilled valuesA; Pending].
Proof.
  assert (Hok : store_ok worldA) by apply store_ok_registerForm, store_ok_initial.
  split; [exact Hok|]. split; [reflexivity|].
  destruct (nonce_is_free_after_settlement worldA nonceA
              {| definition := formA; registration := 0 |} formB Hok eq_refl)
    as (H & _).
  destruct (H valuesA) as (w1 & w2 & H1 & H2 & H3 & _).
  exists w1, w2. split; [exact H1|]. split; [exact H2|]. split; [exact H3|].
  pose proof H1 as E1. vm_compute in E1. injection E1 as <-.
  pose proof H2 as E2. vm_compute in E2. by injection E2 as <-.
Defined.

(** X5. The guard comes first. Outside the content script each of the four
    exported operations of the protocol and [transform] throw the error of
    [expectContext] before they touch anything: no entry is made, looked up
    or deleted, no promise is made or settled. *)
Theorem guard_comes_first (w : World) :
  context w ≠ "contentScript" →
  (∀ nonce d, registerForm nonce d w = (Throw (ContextError "contentScript"), w))
  ∧ (∀ nonce, getFormDefinition nonce w = (Throw (ContextError "contentScript"), w))
  ∧ (∀ nonce values, resolveForm nonce values w = (Throw (ContextError "contentScript"), w))
  ∧ (∀ nonces, cancelForm nonces w = (Throw (ContextError "contentScript"), w))
  ∧ (∀ nonce arg options,
       transform nonce arg options w = (Raise (ContextError "contentScript"), w)).
Proof.
  intros Hc. split; [|split; [|split; [|split]]].
  - intros. by apply guard_stops_registerForm.
  - intros. by apply guard_stops_getFormDefinition.
  - intros. by apply guard_stops_resolveForm.
  - intros. by apply guard_stops_cancelForm.
  - intros. unfold transform. by rewrite expectContext_stop.
Qed.

Lemma guard_comes_first_witness :
  context worldBackground ≠ "contentScript"
  ∧ is_Some (forms worldBackground !! nonceA)
  ∧ resolveForm nonceA valuesA worldBackground
      = (Throw (ContextError "contentScript"), worldBackground)
  ∧ cancelForm [nonceA] worldBackground
      = (Throw (ContextError "contentScript"), worldBackground).
Proof.
  assert (Hc : context worldBackground ≠ "contentScript") by discriminate.
  destruct (guard_comes_first worldBackground Hc) as (_ & _ & H3 & H4 & _).
  split; [exact Hc|]. split; [by eexists|]. split; [apply H3 | apply H4].
Defined.

(** ** [cancelForm] as a whole *)

Lemma cancelForm_loop_app xs ys w :
  context w = "contentScript" →
  void (cancelForm_loop (xs ++ ys)) w
    = void (cancelForm_loop ys) (void (cancelForm_loop xs) w).
Proof.
  revert w. induction xs as [|n rest IH]; intros w Hc; [done|].
  rewrite <- app_comm_cons. unfold void at 1 3.
  rewrite !cancelForm_loop_cons by done.
  fold (void (cancelForm_loop (rest ++ ys)) (void (cancelForm_body n) w)).
  fold (void (cancelForm_loop rest) (void (cancelForm_body n) w)).
  apply IH. unfold void.
  destruct (cancelForm_body_run w Hc n) as (w' & -> & Hc' & _). simpl. congruence.
Qed.

(** X6. One call of [cancelForm] with many nonces does what successive
    calls do: [cancelForm(...xs, ...ys)] returns and leaves the very world
    that [cancelForm(...xs)] followed by [cancelForm(...ys)] leaves. *)
Theorem cancelForm_in_one_call_or_many (w : World) (xs ys : list UUID) :
  context w = "contentScript" →
  cancelForm (xs ++ ys) w = (Ok tt, void (cancelForm ys) (void (cancelForm xs) w)).
Proof.
  intros Hc. rewrite cancelForm_returns by done. f_equal.
  unfold void at 1 2 3. rewrite !cancelForm_run; try done.
  - apply cancelForm_loop_app. done.
  - rewrite cancelForm_run by done. by apply cancelForm_loop_returns.
Qed.

Lemma cancelForm_in_one_call_or_many_witness :
  context worldAB = "contentScript"
  ∧ cancelForm [nonceA; nonceB] worldAB
      = (Ok tt, void (cancelForm [nonceB]) (void (cancelForm [nonceA]) worldAB)).
Proof.
  split; [reflexivity|].
  exact (cancelForm_in_one_call_or_many worldAB [nonceA] [nonceB] eq_refl).
Defined.

(** What the loop leaves in a promise: the [CancelError] when a listed nonce
    held it, and what was there otherwise. *)
Lemma cancelForm_loop_promises ns w p :
  store_ok w →
  promises (void (cancelForm_loop ns) w) !! p =
    if decide (Exists (fun t => registration <$> forms w !! t = Some p) ns)
    then Some (Rejected (CancelError "User cancelled the action"))
    else promises w !! p.
Proof.
  intros Hok. case_decide as Hex.
  - apply Exists_exists in Hex as (t & Hin & Ht).
    destruct (forms w !! t) as [f|] eqn:Hf; [|done].
    injection Ht as <-. by eapply loop_settlements_held.
  - apply cancelForm_loop_others; [apply Hok|].
    intros t f Hin Hf Heq. apply Hex, Exists_exists.
    exists t. split; [done|]. rewrite Hf. simpl. by rewrite Heq.
Qed.

(** X7. [cancelForm] looks at which nonces it is given, not at their order
    or number: two lists with the same members leave the same world. *)
Theorem cancelForm_takes_a_set (w : World) (xs ys : list UUID) :
  store_ok w → (∀ t, t ∈ xs ↔ t ∈ ys) →
  cancelForm xs w = cancelForm ys w.
Proof.
  intros Hok Hsame. pose proof (ok_context _ Hok) as Hc.
  rewrite !cancelForm_returns by done. f_equal.
  unfold void. rewrite !cancelForm_run by done.
  fold (void (cancelForm_loop xs) w). fold (void (cancelForm_loop ys) w).
  destruct (cancelForm_loop_frame xs w Hc) as (Hc1 & _ & Hs1 & Hl1 & Ht1).
  destruct (cancelForm_loop_frame ys w Hc) as (Hc2 & _ & Hs2 & Hl2 & Ht2).
  apply World_eq; try congruence.
  - apply map_eq. intros t. rewrite !cancelForm_loop_forms by done.
    destruct (decide (t ∈ xs)) as [Hx|Hx].
    + rewrite decide_True; [done|]. by apply Hsame.
    + rewrite decide_False; [done|]. by rewrite <- Hsame.
  - apply list_eq. intros p. rewrite !cancelForm_loop_promises by done.
    destruct (decide (Exists (fun t => registration <$> forms w !! t = Some p) xs)) as [Hx|Hx].
    + rewrite decide_True; [done|].
      apply Exists_exists in Hx as (t & Hin & Ht). apply Exists_exists.
      exists t. split; [by apply Hsame|done].
    + rewrite decide_False; [done|]. intros Hy. apply Hx.
      apply Exists_exists in Hy as (t & Hin & Ht). apply Exists_exists.
      exists t. split; [by apply Hsame|done].
Qed.

Lemma cancelForm_takes_a_set_witness :
  store_ok worldAB
  ∧ cancelForm [nonceA; nonceB; nonceA] worldAB = cancelForm [nonceB; nonceA] worldAB.
Proof.
  assert (Hok : store_ok worldAB)
    by apply store_ok_registerForm, store_ok_registerForm, store_ok_initial.
  split; [exact Hok|].
  apply (cancelForm_takes_a_set worldAB [nonceA; nonceB; nonceA] [nonceB; nonceA] Hok).
  intros t. rewrite !elem_of_cons, !elem_of_nil. tauto.
Defined.

(** ** Where the states of the promises come from *)

Lemma settle_lookup d s ps p x :
  settle d s ps !! p = Some x →
  ps !! p = Some x ∨ (p = d ∧ x = s ∧ ps !! p = Some Pending).
Proof.
  unfold settle. destruct (ps !! d) as [[| |]|] eqn:Hd; auto.
  destruct (decide (p = d)) as [->|Hne].
  - rewrite list_lookup_insert_eq by (by eapply lookup_lt_Some).
    intros [= <-]. auto.
  - rewrite list_lookup_insert_ne by done. auto.
Qed.

Lemma registerForm_promises w n d :
  promises (void (registerForm n d) w) = promises w
  ∨ promises (void (registerForm n d) w) = (promises w ++ [Pending])%list.
Proof.
  destruct (decide (context w = "contentScript")) as [Hc|Hc].
  - right. unfold void.
    by destruct (registerForm_run w Hc n d) as (w' & -> & _ & _ & Hp & _).
  - left. unfold void. by rewrite guard_stops_registerForm.
Qed.

Lemma resolveForm_promises w n v :
  promises (void (resolveForm n v) w) = promises w
  ∨ ∃ f, forms w !! n = Some f
       ∧ promises (void (resolveForm n v) w)
           = settle (registration f) (Fulfilled v) (promises w).
Proof.
  destruct (decide (context w = "contentScript")) as [Hc|Hc].
  - destruct (forms w !! n) as [f|] eqn:Hf.
    + right. exists f. split; [done|]. unfold void.
      by destruct (resolveForm_run w Hc n v f Hf) as (w' & -> & _ & _ & Hp & _).
    + left. unfold void. by rewrite resolveForm_missing.
  - left. unfold void. by rewrite guard_stops_resolveForm.
Qed.

Lemma cancelForm_body_promises w n :
  promises (void (cancelForm_body n) w) =
    match forms w !! n with
    | Some f => settle (registration f)
                  (Rejected (CancelError "User cancelled the action")) (promises w)
    | None => promises w
    end.
Proof.
  destruct (decide (context w = "contentScript")) as [Hc|Hc].
  - unfold void. by destruct (cancelForm_body_run w Hc n) as (w' & -> & _ & _ & Hp & _).
  - unfold cancelForm_body, unregisterForm. run_monad.
    destruct (forms w !! n) as [f|]; simpl; by rewrite expectContext_stop.
Qed.

(** X8. The store is sound in every world the content script can reach:
    every entry of [forms] holds a promise that is still pending, so a settled
    form is never found in the store, and no two entries hold the same
    promise. *)
Theorem reachable_store_is_sound (evs : list Event) :
  (∀ t f, forms (run evs initialWorld) !! t = Some f →
     promises (run evs initialWorld) !! registration f = Some Pending)
  ∧ (∀ t1 t2 f1 f2,
       forms (run evs initialWorld) !! t1 = Some f1 →
       forms (run evs initialWorld) !! t2 = Some f2 →
       registration f1 = registration f2 → t1 = t2)
  ∧ (∀ p, is_settled p (run evs initialWorld) = true →
       ∀ t f, forms (run evs initialWorld) !! t = Some f → registration f ≠ p).
Proof.
  pose proof (w_store _ (world_ok_reachable evs)) as [_ Hpend Hun].
  split; [done|]. split; [done|].
  intros p Hp t f Hf <-. unfold is_settled in Hp.
  by rewrite (Hpend t f Hf) in Hp.
Qed.

Lemma only_cancellations_run evs w : only_cancellations w → only_cancellations (run evs w).
Proof.
  apply (inv_run only_cancellations).
  - unfold only_cancellations. by intros ?? _ _ ->.
  - intros w0 n d H p e. destruct (registerForm_promises w0 n d) as [-> | ->]; [apply H|].
    intros Hp. apply lookup_app_Some in Hp as [Hp|[_ Hp]]; [by eapply H|].
    by destruct (p - length (promises w0)) as [|[|?]].
  - intros w0 n v H p e. destruct (resolveForm_promises w0 n v) as [-> | (f & _ & ->)];
      [apply H|].
    intros [Hp|(_ & [=] & _)]%settle_lookup. by eapply H.
  - intros w0 n H p e. rewrite cancelForm_body_promises.
    destruct (forms w0 !! n) as [f|]; [|apply H].
    intros [Hp|(_ & [= ->] & _)]%settle_lookup; [by eapply H|done].
Qed.

(** X9. The only failure a form can end in is the cancellation. In every
    world the content script can reach, a rejected promise carries the
    [CancelError] of [cancelForm] and no other error; so when [transform]
    leaves its [await] by throwing, it throws that error. *)
Theorem rejections_are_cancellations (evs : list Event) (p : Deferred) (e : JsError) :
  promises (run evs initialWorld) !! p = Some (Rejected e) →
  e = CancelError "User cancelled the action"
  ∧ ∀ c, transform_afterRegisterForm c p (run evs initialWorld)
           = Some (Raise (CancelError "User cancelled the action"),
                   signal_abort c (run evs initialWorld)).
Proof.
  intros Hp.
  assert (He : e = CancelError "User cancelled the action").
  { eapply (only_cancellations_run evs initialWorld); [|exact Hp].
    intros p' e' H. simpl in H. by rewrite lookup_nil in H. }
  split; [done|]. intros c. unfold transform_afterRegisterForm.
  by rewrite Hp, He.
Qed.

Lemma rejections_are_cancellations_witness :
  promises (run (eventsModal ++ [Abort 0]) initialWorld) !! 0
    = Some (Rejected (CancelError "User cancelled the action"))
  ∧ transform_afterRegisterForm 1 0 (run (eventsModal ++ [Abort 0]) initialWorld)
      = Some (Raise (CancelError "User cancelled the action"),
              signal_abort 1 (run (eventsModal ++ [Abort 0]) initialWorld)).
Proof.
  split; [reflexivity|].
  destruct (rejections_are_cancellations (eventsModal ++ [Abort 0]) 0
              (CancelError "User cancelled the action") eq_refl) as [_ H].
  exact (H 1).
Defined.

Section NotNewlyFulfilled.
Variable w0 : World.
Variable p : Deferred.
Variable v : JsValue.

Lemma nnf_store_only w w' :
  context w' = context w → forms w' = forms w → promises w' = promises w →
  not_newly_fulfilled w0 p v w → not_newly_fulfilled w0 p v w'.
Proof. unfold not_newly_fulfilled. by intros _ _ ->. Qed.

Lemma nnf_registerForm w n d :
  not_newly_fulfilled w0 p v w → not_newly_fulfilled w0 p v (void (registerForm n d) w).
Proof.
  unfold not_newly_fulfilled. intros H.
  destruct (registerForm_promises w n d) as [-> | ->]; [done|].
  intros Hp. apply lookup_app_Some in Hp as [Hp|[_ Hp]]; [by apply H|].
  by destruct (p - length (promises w)) as [|[|?]].
Qed.

Lemma nnf_cancelForm_body w n :
  not_newly_fulfilled w0 p v w → not_newly_fulfilled w0 p v (void (cancelForm_body n) w).
Proof.
  unfold not_newly_fulfilled. intros H. rewrite cancelForm_body_promises.
  destruct (forms w !! n) as [f|]; [|done].
  intros [Hp|(_ & [=] & _)]%settle_lookup. by apply H.
Qed.

(** Only [resolveForm] with the value itself can fulfil a promise with it. *)
Lemma fulfilled_by ev w :
  not_newly_fulfilled w0 p v w →
  promises (react ev w) !! p = Some (Fulfilled v) →
  promises w0 !! p = Some (Fulfilled v) ∨ ∃ n, ev = Call_resolveForm n v.
Proof.
  intros H Hafter.
  assert (Hleft : not_newly_fulfilled w0 p v (react ev w) →
            promises w0 !! p = Some (Fulfilled v) ∨ ∃ n, ev = Call_resolveForm n v).
  { intros Hnnf. left. by apply Hnnf. }
  destruct ev as [n d|n|n v'|ns|n arg options|at_ target| |s| ]; simpl in *.
  - apply Hleft. by apply nnf_registerForm.
  - apply Hleft. by apply inv_getFormDefinition.
  - destruct (resolveForm_promises w n v') as [Hp | (f & _ & Hp)];
      rewrite Hp in Hafter; [left; by apply H|].
    apply settle_lookup in Hafter as [Hx|(_ & [= ->] & _)]; [left; by apply H|].
    right. by exists n.
  - apply Hleft. apply (inv_cancelForm (not_newly_fulfilled w0 p v));
      [apply nnf_cancelForm_body|done].
  - apply Hleft. unfold transform, expectContext. by case_decide.
  - apply Hleft. destruct (resume at_ target w) as [[pr w']|] eqn:Hr; [|done].
    eapply (inv_resume (not_newly_fulfilled w0 p v));
      [apply nnf_store_only | apply nnf_registerForm | apply nnf_cancelForm_body
      | exact H | exact Hr].
  - apply Hleft. by eapply nnf_store_only; [..|apply H].
  - apply Hleft. apply (inv_signal_abort (not_newly_fulfilled w0 p v));
      [apply nnf_store_only | apply nnf_cancelForm_body | done].
  - apply Hleft. apply (inv_dispatchPanelHiding (not_newly_fulfilled w0 p v));
      [apply nnf_store_only | apply nnf_cancelForm_body | done].
Qed.
End NotNewlyFulfilled.

Lemma fulfilled_in_run evs w p v :
  promises (run evs w) !! p = Some (Fulfilled v) →
  promises w !! p = Some (Fulfilled v) ∨ ∃ n, Call_resolveForm n v ∈ evs.
Proof.
  revert w. induction evs as [|ev evs IH]; intros w H; [by left|].
  simpl in H. destruct (IH _ H) as [Hw|[n Hn]].
  - destruct (fulfilled_by w p v ev w) as [Hbefore|[n ->]]; [by intros ?|done|..].
    + by left.
    + right. exists n. by left.
  - right. exists n. by right.
Qed.

(** X10. Values are not made up. In every world the content script can
    reach, a promise that is fulfilled with a value was fulfilled by a call
    [resolveForm(nonce, value)] with that very value: nothing else in the two
    modules fulfils a promise. *)
Theorem fulfilled_values_were_submitted (evs : list Event) (p : Deferred) (v : JsValue) :
  promises (run evs initialWorld) !! p = Some (Fulfilled v) →
  ∃ nonce, Call_resolveForm nonce v ∈ evs.
Proof.
  intros H. destruct (fulfilled_in_run evs initialWorld p v H) as [H0|H0]; [|done].
  simpl in H0. by rewrite lookup_nil in H0.
Qed.

Lemma fulfilled_values_were_submitted_witness :
  promises (run (eventsModal ++ [Call_resolveForm nonceA valuesA]) initialWorld) !! 0
    = Some (Fulfilled valuesA)
  ∧ ∃ nonce, Call_resolveForm nonce valuesA
               ∈ (eventsModal ++ [Call_resolveForm nonceA valuesA])%list.
Proof.
  split; [reflexivity|].
  exact (fulfilled_values_were_submitted
           (eventsModal ++ [Call_resolveForm nonceA valuesA]) 0 valuesA eq_refl).
Defined.

(** ** Aborts and the form they cancel *)

Lemma trace_runAbortListener l w :
  trace (runAbortListener l w) = (trace w ++ hides [l])%list.
Proof.
  destruct l as [n|n]; simpl; rewrite trace_cancelForm; simpl.
  - by rewrite app_nil_r.
  - done.
Qed.

Lemma trace_listeners ls w :
  trace (foldl (fun w' l => runAbortListener l w') w ls) = (trace w ++ hides ls)%list.
Proof.
  revert w. induction ls as [|l ls IH]; intros w; simpl.
  - by rewrite app_nil_r.
  - rewrite IH, trace_runAbortListener. simpl. by rewrite <- app_assoc, app_nil_r.
Qed.

(** The trace of an abort: the event, then the calls of its listeners. *)
Lemma trace_signal_abort s sig w :
  signals w !! s = Some sig → aborted sig = false →
  trace (signal_abort s w)
    = (trace w ++ AbortEvent s :: hides (abortListeners sig))%list.
Proof.
  intros Hs Ha. unfold signal_abort. rewrite Hs, Ha, trace_listeners. simpl.
  by rewrite <- app_assoc.
Qed.

Lemma trace_signal_abort_grows s w e : e ∈ trace w → e ∈ trace (signal_abort s w).
Proof.
  intros He. destruct (signals w !! s) as [sig|] eqn:Hs.
  - destruct (aborted sig) eqn:Ha.
    + rewrite signal_abort_noop; [done|]. left. unfold signal_aborted. by rewrite Hs.
    + rewrite (trace_signal_abort s sig) by done. apply elem_of_app. by left.
  - rewrite signal_abort_noop; auto.
Qed.

Section FormOfANonce.
Variable n : UUID.
Variable f : RegisteredForm.

Lemma gone_cancelForm m w :
  cancelled_and_gone n f w → cancelled_and_gone n f (void (cancelForm [m]) w).
Proof.
  intros (Hok & Hc & Hn). destruct (cancel_one w m Hok) as (Hok' & Hf & _ & Hstay).
  split; [done|]. split; [by apply Hstay|].
  destruct (decide (n = m)) as [->|Hne]; [|by rewrite Hf].
  unfold void. rewrite cancelForm_run by apply Hok.
  fold (void (cancelForm_loop [m]) w).
  rewrite cancelForm_loop_forms by apply Hok. rewrite decide_True; [done|by left].
Qed.

Lemma registered_or_gone_cancelForm m w :
  registered_or_gone n f w → registered_or_gone n f (void (cancelForm [m]) w).
Proof.
  intros (Hok & H). destruct H as [H|[H1 H2]].
  - destruct (cancel_one w m Hok) as (Hok' & Hf & Hrej & _).
    split; [done|]. destruct (decide (n = m)) as [->|Hne].
    + right. split; [by apply Hrej|].
      unfold void. rewrite cancelForm_run by apply Hok.
      fold (void (cancelForm_loop [m]) w).
      rewrite cancelForm_loop_forms by apply Hok. rewrite decide_True; [done|by left].
    + left. by rewrite Hf.
  - destruct (gone_cancelForm m w) as (Hok' & H1' & H2'); [done|].
    split; [done|]. by right.
Qed.

Lemma with_hide_same (P : World → Prop) w m :
  (∀ w w', context w' = context w → forms w' = forms w → promises w' = promises w →
           P w → P w') →
  P w → P (void (hideSidebarForm m) w).
Proof. intros HP H. by eapply HP; [..|apply H]. Qed.

Lemma store_only_gone w w' :
  context w' = context w → forms w' = forms w → promises w' = promises w →
  cancelled_and_gone n f w → cancelled_and_gone n f w'.
Proof.
  intros Hc Hf Hp (Hok & H1 & H2). split; [by eapply store_ok_same|].
  unfold cancelled, stays in *. by rewrite Hp, Hf.
Qed.

Lemma store_only_registered_or_gone w w' :
  context w' = context w → forms w' = forms w → promises w' = promises w →
  registered_or_gone n f w → registered_or_gone n f w'.
Proof.
  intros Hc Hf Hp (Hok & H). split; [by eapply store_ok_same|].
  unfold cancelled, stays in *. by rewrite Hp, Hf.
Qed.

Lemma gone_listener l w :
  cancelled_and_gone n f w → cancelled_and_gone n f (runAbortListener l w).
Proof.
  intros H. destruct l as [m|m]; simpl; apply gone_cancelForm; [done|].
  by apply with_hide_same; [apply store_only_gone|].
Qed.

Lemma registered_or_gone_listener l w :
  registered_or_gone n f w → registered_or_gone n f (runAbortListener l w).
Proof.
  intros H. destruct l as [m|m]; simpl; apply registered_or_gone_cancelForm; [done|].
  by apply with_hide_same; [apply store_only_registered_or_gone|].
Qed.

Lemma own_listener_unregisters l w :
  registered_or_gone n f w →
  l = CallerAbortListener n ∨ l = ControllerAbortListener n →
  cancelled_and_gone n f (runAbortListener l w).
Proof.
  intros H Hl.
  assert (Hgo : ∀ w0, registered_or_gone n f w0 →
                  cancelled_and_gone n f (void (cancelForm [n]) w0)).
  { intros w0 H0. destruct (registered_or_gone_cancelForm n w0 H0) as (Hok' & H').
    split; [done|]. destruct H' as [H'|H']; [|done].
    exfalso. revert H'. unfold void. rewrite cancelForm_run by apply H0.
    fold (void (cancelForm_loop [n]) w0).
    rewrite cancelForm_loop_forms by apply H0. rewrite decide_True; [done|by left]. }
  destruct Hl as [-> | ->]; simpl; apply Hgo; [done|].
  by apply with_hide_same; [apply store_only_registered_or_gone|].
Qed.

Lemma listeners_unregister ls w :
  registered_or_gone n f w →
  CallerAbortListener n ∈ ls ∨ ControllerAbortListener n ∈ ls →
  cancelled_and_gone n f (foldl (fun w' l => runAbortListener l w') w ls).
Proof.
  revert w. induction ls as [|l ls IH]; intros w H Hin.
  { destruct Hin as [Hin|Hin]; by apply elem_of_nil in Hin. }
  simpl.
  destruct (decide (l = CallerAbortListener n ∨ l = ControllerAbortListener n)) as [Hl|Hl].
  - apply (foldl_invariant (cancelled_and_gone n f) runAbortListener);
      [intros; by apply gone_listener | by apply own_listener_unregisters].
  - apply IH; [by apply registered_or_gone_listener|].
    destruct Hin as [Hin|Hin]; apply elem_of_cons in Hin as [Heq|Hin]; subst; tauto.
Qed.

Lemma registered_or_gone_signal_abort s w :
  registered_or_gone n f w → registered_or_gone n f (signal_abort s w).
Proof.
  intros H. unfold signal_abort.
  destruct (signals w !! s) as [sig|]; [|done]. destruct (aborted sig); [done|].
  apply foldl_invariant; [intros; by apply registered_or_gone_listener|].
  by eapply store_only_registered_or_gone; [..|apply H].
Qed.

Lemma gone_signal_abort s w :
  cancelled_and_gone n f w → cancelled_and_gone n f (signal_abort s w).
Proof.
  intros H. unfold signal_abort.
  destruct (signals w !! s) as [sig|]; [|done]. destruct (aborted sig); [done|].
  apply foldl_invariant; [intros; by apply gone_listener|].
  by eapply store_only_gone; [..|apply H].
Qed.

Lemma own_abort_unregisters s sig w :
  registered_or_gone n f w → signals w !! s = Some sig → aborted sig = false →
  CallerAbortListener n ∈ abortListeners sig ∨ ControllerAbortListener n ∈ abortListeners sig →
  cancelled_and_gone n f (signal_abort s w).
Proof.
  intros H Hs Ha Hin. unfold signal_abort. rewrite Hs, Ha.
  apply listeners_unregister; [|done].
  by eapply store_only_registered_or_gone; [..|apply H].
Qed.
End FormOfANonce.

(** X11. A submission that comes after the abort is refused. When a signal
    that carries a listener of [transform] for a registered form is aborted,
    the form is cancelled and its entry is gone at once; a [resolveForm] that
    arrives afterwards throws "Form not registered", changes nothing, and the
    promise stays rejected through every later run. *)
Theorem submit_after_abort_is_refused (w : World) (s : SignalRef) (sig : Signal)
  (nonce : UUID) (f : RegisteredForm) (values : JsValue) :
  store_ok w → signals w !! s = Some sig → aborted sig = false →
  CallerAbortListener nonce ∈ abortListeners sig
    ∨ ControllerAbortListener nonce ∈ abortListeners sig →
  forms w !! nonce = Some f →
  forms (signal_abort s w) !! nonce = None
  ∧ resolveForm nonce values (signal_abort s w)
      = (Throw (Error ("Form not registered: " +:+ nonce)), signal_abort s w)
  ∧ ∀ evs, promises (run evs (signal_abort s w)) !! registration f
             = Some (Rejected (CancelError "User cancelled the action")).
Proof.
  intros Hok Hs Ha Hin Hf.
  destruct (own_abort_unregisters nonce f s sig w) as (Hok' & Hc & Hn); try done.
  { split; [done|]. by left. }
  split; [done|]. split.
  - apply resolveForm_missing; [apply Hok'|done].
  - intros evs. by apply (stays_run (registration f)).
Qed.

Lemma submit_after_abort_is_refused_witness :
  store_ok worldModal
  ∧ resolveForm nonceA valuesA worldModalAborted
      = (Throw (Error ("Form not registered: " +:+ nonceA)), worldModalAborted)
  ∧ ∀ evs, promises (run evs worldModalAborted) !! 0
             = Some (Rejected (CancelError "User cancelled the action")).
Proof.
  assert (Hok : store_ok worldModal) by apply world_ok_reachable.
  split; [exact Hok|].
  destruct (submit_after_abort_is_refused worldModal 0
              {| aborted := false; abortListeners := [CallerAbortListener nonceA] |}
              nonceA {| definition := formA; registration := 0 |} valuesA
              Hok eq_refl eq_refl) as (_ & H2 & H3).
  - left. by left.
  - reflexivity.
  - split; [exact H2|exact H3].
Defined.

(** ** The user closes the sidebar *)

Section ClosingTheSidebar.
Variable n : UUID.
Variable f : RegisteredForm.
Variable c : SignalRef.

Lemma hiding_inv_signal_abort c' w :
  hiding_inv n f c w → hiding_inv n f c (signal_abort c' w).
Proof.
  intros [Hw (sigc & Hsigc & Hown) Hform Hab Hpend].
  destruct (signals w !! c') as [sig'|] eqn:Hs';
    [|rewrite signal_abort_noop by auto; by split; [|exists sigc|..]].
  destruct (aborted sig') eqn:Ha'.
  { rewrite signal_abort_noop by (left; unfold signal_aborted; by rewrite Hs').
    by split; [|exists sigc|..]. }
  destruct (signal_abort_run c' w sig' Hs' Ha') as (Hsig & Hwl & _).
  destruct (decide (c' = c)) as [->|Hne].
  - assert (sig' = sigc) by congruence. subst sig'.
    assert (Hgone : cancelled_and_gone n f (signal_abort c w)).
    { eapply own_abort_unregisters; [done|done|done|by right]. }
    split.
    + by apply world_ok_signal_abort.
    + exists {| aborted := true; abortListeners := abortListeners sigc |}.
      split; [|exact Hown].
      rewrite Hsig. apply list_lookup_insert_eq. by eapply lookup_lt_Some.
    + destruct Hgone as (? & ? & ?). split; [done|]. by right.
    + intros _. split; [done|].
      rewrite (trace_signal_abort c sigc) by done.
      apply elem_of_app. right. right.
      unfold hides. apply list_elem_of_In, in_flat_map.
      exists (ControllerAbortListener n). split; [by apply list_elem_of_In | by left].
    + rewrite signal_abort_aborts by eauto. done.
  - assert (Hsame : signal_aborted c (signal_abort c' w) = signal_aborted c w).
    { rewrite signal_aborted_abort. rewrite bool_decide_false; [done|]. by intros [? _]. }
    split.
    + by apply world_ok_signal_abort.
    + exists sigc. split; [|done]. rewrite Hsig. by rewrite list_lookup_insert_ne.
    + by apply registered_or_gone_signal_abort.
    + rewrite Hsame. intros H. destruct (Hab H) as [Hg Ht]. split.
      * by apply gone_signal_abort.
      * by apply trace_signal_abort_grows.
    + rewrite Hsame. intros H. rewrite Hwl. apply list_elem_of_filter.
      split; [simpl; congruence | by apply Hpend].
Qed.

Lemma hiding_inv_step l w :
  hiding_inv n f c w →
  hiding_inv n f c (if bool_decide (l ∈ windowListeners w)
                    then signal_abort (callback_controller l) w else w).
Proof. intros H. case_bool_decide; [by apply hiding_inv_signal_abort|done]. Qed.

Lemma hiding_reaches_the_listener ls w :
  hiding_inv n f c w →
  panelHidingListener c ∈ ls ∨ signal_aborted c w = true →
  hiding_inv n f c
    (foldl (fun w' l => if bool_decide (l ∈ windowListeners w')
                        then signal_abort (callback_controller l) w' else w') w ls)
  ∧ signal_aborted c
      (foldl (fun w' l => if bool_decide (l ∈ windowListeners w')
                          then signal_abort (callback_controller l) w' else w') w ls)
    = true.
Proof.
  revert w. induction ls as [|l ls IH]; intros w H Hor.
  { destruct Hor as [Hin|Ha]; [by apply elem_of_nil in Hin|done]. }
  simpl. apply IH; [by apply hiding_inv_step|].
  destruct (signal_aborted c w) eqn:Ha.
  { right. case_bool_decide; [|done]. by apply (aborted_signal_abort c). }
  destruct Hor as [Hin|?]; [|done].
  apply elem_of_cons in Hin as [<-|Hin]; [|by left].
  right. rewrite bool_decide_true by (by apply (hi_pending _ _ _ _ H)).
  simpl. apply signal_abort_aborts.
  destruct (hi_listener _ _ _ _ H) as (sig & Hsig & _). eauto.
Qed.
End ClosingTheSidebar.

(** X12. Closing the sidebar cancels the form. In a sound world in which
    a sidebar run of [transform] has its listener on [window], its listener
    on the controller and its form registered, the dispatch of
    [PANEL_HIDING_EVENT] aborts the controller, hides the panel entry,
    rejects the promise with the [CancelError], deletes the entry and takes
    the listener off [window], whatever other listeners run before or after;
    [transform] then throws the [CancelError] and its [finally] changes
    nothing more. *)
Theorem closing_the_sidebar_cancels (w : World) (nonce : UUID) (f : RegisteredForm)
  (controller : SignalRef) (sig : Signal) :
  world_ok w →
  panelHidingListener controller ∈ windowListeners w →
  signals w !! controller = Some sig →
  ControllerAbortListener nonce ∈ abortListeners sig →
  forms w !! nonce = Some f →
  signal_aborted controller (dispatchPanelHiding w) = true
  ∧ HideSidebarForm nonce ∈ trace (dispatchPanelHiding w)
  ∧ promises (dispatchPanelHiding w) !! registration f
      = Some (Rejected (CancelError "User cancelled the action"))
  ∧ forms (dispatchPanelHiding w) !! nonce = None
  ∧ (∀ l, l ∈ windowListeners (dispatchPanelHiding w) → option_signal l ≠ controller)
  ∧ transform_afterRegisterForm controller (registration f) (dispatchPanelHiding w)
      = Some (Raise (CancelError "User cancelled the action"), dispatchPanelHiding w).
Proof.
  intros Hok Hl Hsig Hown Hf.
  assert (Hinv : hiding_inv nonce f controller w).
  { split; [done|by exists sig| |..].
    - split; [apply Hok|by left].
    - intros Ha. pose proof (w_listeners _ Hok _ Hl) as Hno. simpl in Hno. congruence.
    - done. }
  destruct (hiding_reaches_the_listener nonce f controller (windowListeners w) w Hinv)
    as [Hinv' Ha]; [by left|].
  fold (dispatchPanelHiding w) in Hinv', Ha.
  destruct (hi_aborted _ _ _ _ Hinv' Ha) as [(Hok' & Hc & Hn) Ht].
  split; [done|]. split; [done|]. split; [done|]. split; [done|]. split.
  - intros l Hin Heq. pose proof (w_listeners _ (hi_world _ _ _ _ Hinv') l Hin) as Hno.
    rewrite Heq in Hno. congruence.
  - unfold transform_afterRegisterForm. unfold cancelled, stays in Hc. rewrite Hc.
    by rewrite signal_abort_noop by auto.
Qed.

Lemma closing_the_sidebar_cancels_witness :
  world_ok worldSidebar
  ∧ panelHidingListener 1 ∈ windowListeners worldSidebar
  ∧ forms worldSidebar !! nonceA = Some {| definition := formA; registration := 0 |}
  ∧ HideSidebarForm nonceA ∈ trace worldSidebarHidden
  ∧ forms worldSidebarHidden !! nonceA = None
  ∧ transform_afterRegisterForm 1 0 worldSidebarHidden
      = Some (Raise (CancelError "User cancelled the action"), worldSidebarHidden).
Proof.
  assert (Hok : world_ok worldSidebar) by apply world_ok_reachable.
  assert (Hl : panelHidingListener 1 ∈ windowListeners worldSidebar) by (by left).
  destruct (closing_the_sidebar_cancels worldSidebar nonceA
              {| definition := formA; registration := 0 |} 1
              {| aborted := false; abortListeners := [ControllerAbortListener nonceA] |}
              Hok Hl eq_refl) as (_ & H2 & _ & H4 & _ & H6).
  - by left.
  - reflexivity.
  - split; [exact Hok|]. split; [exact Hl|]. split; [reflexivity|].
    split; [exact H2|]. split; [exact H4|exact H6].
Defined.

(** ** One surface for a run *)

Lemma caller_listener_frame (options : BlockOptions) frameNonce w :
  let w0 := match abortSignal options with
            | Some s => void (signal_addEventListener s (CallerAbortListener frameNonce)) w
            | None => w
            end in
  context w0 = context w ∧ forms w0 = forms w ∧ promises w0 = promises w
  ∧ length (signals w0) = length (signals w)
  ∧ windowListeners w0 = windowListeners w ∧ trace w0 = trace w.
Proof.
  simpl. destruct (abortSignal options) as [s|]; [|done].
  apply signal_addEventListener_run.
Qed.

(** X13. A run of [transform] asks for one surface, and for the one of its
    location. With a location other than "sidebar" the stretch up to the
    [await] calls [showModal] once, with the frame source of the nonce, and
    neither calls the sidebar nor puts a listener on [window]. With the
    location "sidebar" the first stretch calls [ensureSidebar] and registers
    nothing yet; the second calls [showSidebarForm] once with the nonce and
    the form definition; [showModal] is not called and the frame source is
    not used. Besides these calls only the warning of [registerForm] is
    written. *)
Theorem one_surface_per_run (frameNonce : UUID) (locals : Locals)
  (options : BlockOptions) (target : string) (w : World) :
  context w = "contentScript" →
  (l_location locals ≠ "sidebar" → ∃ w1,
     transform_afterCreateFrameSource frameNonce locals options target w
       = (Suspend (AwaitRegisterForm (length (signals w)) (length (promises w))), w1)
     ∧ trace w1
         = (trace w
              ++ ShowModal (createFrameSource frameNonce (l_location locals) target)
                   (length (signals w))
              :: warned frameNonce w)%list
     ∧ windowListeners w1 = windowListeners w)
  ∧ (l_location locals = "sidebar" → ∃ w1,
       transform_afterCreateFrameSource frameNonce locals options target w
         = (Suspend (AwaitEnsureSidebar frameNonce (formDefinitionOf locals) options
                       (length (signals w))), w1)
       ∧ trace w1 = (trace w ++ [EnsureSidebar])%list
       ∧ forms w1 = forms w
       ∧ promises w1 = promises w
       ∧ windowListeners w1 = windowListeners w)
  ∧ (∀ formDefinition controller, ∃ w1,
       transform_afterEnsureSidebar frameNonce formDefinition options controller w
         = (Suspend (AwaitRegisterForm controller (length (promises w))), w1)
       ∧ trace w1
           = (trace w
                ++ ShowSidebarForm (logger_extensionId options) frameNonce formDefinition
                :: warned frameNonce w)%list).
Proof.
  intros Hc.
  destruct (caller_listener_frame options frameNonce w) as (Hc0 & Hf0 & Hp0 & Hl0 & Hw0 & Ht0).
  split; [|split].
  - intros Hloc. unfold transform_afterCreateFrameSource.
    rewrite decide_False by done. rewrite Hl0.
    match goal with |- context [try_registerForm ?c ?n ?d ?w'] =>
      destruct (try_registerForm_run c n d w')
        as (w1 & -> & _ & _ & _ & _ & Hwl1 & Ht1); [simpl; congruence|]
    end.
    simpl in *. rewrite Hp0, Hf0, Ht0, Hw0 in *.
    exists w1. split; [done|]. split; [|done].
    rewrite Ht1. unfold warned. by rewrite <- app_assoc.
  - intros Hloc. unfold transform_afterCreateFrameSource.
    rewrite decide_True by done. rewrite Hl0.
    eexists. split; [done|]. simpl. by rewrite Ht0, Hf0, Hp0, Hw0.
  - intros formDefinition controller. unfold transform_afterEnsureSidebar.
    match goal with |- context [try_registerForm ?c ?n ?d ?w'] =>
      assert (Hw' : context w' = context w ∧ forms w' = forms w ∧ promises w' = promises w
                    ∧ trace w' = (trace w ++ [ShowSidebarForm (logger_extensionId options)
                                                frameNonce formDefinition])%list);
      [|destruct Hw' as (Hc' & Hf' & Hp' & Ht');
        destruct (try_registerForm_run c n d w') as (w1 & -> & _ & _ & _ & _ & _ & Ht1);
        [congruence|] ]
    end.
    { match goal with |- context [signal_addEventListener ?s ?l] =>
        destruct (signal_addEventListener_run s l
          (void (window_addEventListener
                   {| callback_controller := controller; option_signal := controller |})
             (emit (ShowSidebarForm (logger_extensionId options) frameNonce formDefinition) w)))
          as (-> & -> & -> & _ & _ & ->)
      end.
      unfold void, window_addEventListener.
      by match goal with |- context [if ?b then _ else _] => destruct b end. }
    rewrite Hp', Hf', Ht' in *. exists w1. split; [done|].
    rewrite Ht1. unfold warned. by rewrite <- app_assoc.
Qed.

Lemma one_surface_per_run_witness :
  context initialWorld = "contentScript"
  ∧ (∃ w1,
       transform_afterCreateFrameSource nonceA (destructure argA) optionsA targetA initialWorld
         = (Suspend (AwaitRegisterForm 0 0), w1)
       ∧ trace w1 = [ShowModal {| param_nonce := nonceA; param_opener := targetA;
                                  param_mode := "modal" |} 0])
  ∧ ∃ w1,
      transform_afterCreateFrameSource nonceA (destructure argSidebar) optionsA targetA
        initialWorld
        = (Suspend (AwaitEnsureSidebar nonceA formA optionsA 0), w1)
      ∧ trace w1 = [EnsureSidebar] ∧ forms w1 = ∅.
Proof.
  split; [reflexivity|].
  destruct (one_surface_per_run nonceA (destructure argA) optionsA targetA initialWorld eq_refl)
    as (H1 & _).
  destruct (one_surface_per_run nonceA (destructure argSidebar) optionsA targetA
              initialWorld eq_refl) as (_ & H2 & _).
  split.
  - destruct H1 as (w1 & Hr & Ht & _); [discriminate|]. exists w1. split; [exact Hr|exact Ht].
  - destruct H2 as (w1 & Hr & Ht & Hf & _); [reflexivity|]. exists w1.
    split; [exact Hr|]. split; [exact Ht|exact Hf].
Defined.
